(** * openIMIS core: the mutation pipeline of [core/schema.py] and [core/tasks.py]

    A shallow embedding of [OpenIMISMutation.mutate_and_get_payload], of the
    Celery task [openimis_mutation_async], of [OpenIMISJSONEncoder], of the
    two read-path helpers [OrderedDjangoFilterConnectionField.connection_resolver]
    and [MutationLogGQLType.get_queryset], of the scalars [SmallInt] and
    [TinyInt] and of [Query.resolve_module_configurations], followed by the
    properties of the mutation log that the specification states and by
    further properties of the code. *)

From Stdlib Require Import ZArith String Ascii List Bool Lia.
From stdpp Require Import base option list strings pretty.

Local Open Scope Z_scope.
Local Open Scope string_scope.
Local Open Scope list_scope.
Set Warnings "-register-all".

(** ** Python values *)

Module Py.

(** A Python exception, as far as the pipeline looks at it: its class name and
    the text [str(exc)].  Only subclasses of [Exception] are modelled. *)
Record exn := Exn { exn_type : string; exn_str : string }.

(** The result of running Python code: a value, or a raised exception. *)
Inductive outcome (A : Type) : Type :=
| Return (a : A)
| Raise (e : exn).
Arguments Return {A} a.
Arguments Raise {A} e.

(** A float is named by its [repr], the text [json.dumps] writes for it; a
    [repr] has at least one character. *)
Record pyfloat := PyFloat { float_repr_head : ascii; float_repr_tail : string }.

Definition float_repr (f : pyfloat) : string :=
  String (float_repr_head f) (float_repr_tail f).

(** A [decimal.Decimal], by what the pipeline can observe of it: [float(o)]
    and [bool(o)]. *)
Record Decimal := { decimal_float : pyfloat; decimal_nonzero : bool }.

(** [user.language] is either a row of the [Language] model or a plain
    language code. *)
Inductive language_value :=
| LanguageRow (code : string)
| LanguageCode (code : string).

(** An authenticated [core.models.User]. *)
Record User := {
  user_id : Z;
  is_superuser_flag : bool;
  language : option language_value
}.

(** What [info.context.user] holds: Django's [AnonymousUser] (no [language]
    attribute, [id] is [None], never a superuser) or a [User]. *)
Inductive principal :=
| AnonymousUser
| Authenticated (u : User).

Definition is_anonymous (p : principal) : bool :=
  match p with AnonymousUser => true | Authenticated _ => false end.

Definition is_superuser (p : principal) : bool :=
  match p with AnonymousUser => false | Authenticated u => is_superuser_flag u end.

(** [user.id], with [None] for the anonymous user. *)
Definition principal_id (p : principal) : option Z :=
  match p with AnonymousUser => None | Authenticated u => Some (user_id u) end.

(** The values a mutation's keyword arguments are made of.  [PObject] stands
    for an object of any other class (named by its type), which no JSON
    encoder of the pipeline knows. *)
Inductive pyval :=
| PNone
| PBool (b : bool)
| PInt (n : Z)
| PFloat (f : pyfloat)
| PStr (s : string)
| PList (l : list pyval)
| PDict (d : list (string * pyval))
| PDecimal (d : Decimal)
| PHttpRequest (user : option principal)
| PObject (type_name : string).

(** A [dict] with string keys, in insertion order. *)
Definition pydict := list (string * pyval).

(** [d.get(k)]: the first binding of [k], [None] when there is none. *)
Fixpoint dict_get (d : pydict) (k : string) : pyval :=
  match d with
  | [] => PNone
  | (k', v) :: d' => if String.eqb k k' then v else dict_get d' k
  end.

(** [d[k] = v]: an existing key keeps its position, a new key goes last. *)
Fixpoint dict_set (d : pydict) (k : string) (v : pyval) : pydict :=
  match d with
  | [] => [(k, v)]
  | (k', v') :: d' =>
      if String.eqb k k' then (k', v) :: d' else (k', v') :: dict_set d' k v
  end.

(** Python truth value, as tested by [if x:]. *)
Definition truthy (v : pyval) : bool :=
  match v with
  | PNone => false
  | PBool b => b
  | PInt n => negb (Z.eqb n 0)
  | PFloat f =>
      negb (String.eqb (float_repr f) "0.0" || String.eqb (float_repr f) "-0.0")
  | PStr s => negb (String.eqb s "")
  | PList l => match l with [] => false | _ => true end
  | PDict d => match d with [] => false | _ => true end
  | PDecimal d => decimal_nonzero d
  | PHttpRequest _ => true
  | PObject _ => true
  end.

(** [str(id)] of a principal, as an f-string prints it. *)
Definition str_principal_id (p : principal) : string :=
  match principal_id p with
  | None => "None"
  | Some n => pretty n
  end.

End Py.
Export Py.

(** ** JSON documents and [OpenIMISJSONEncoder] *)

Module Json.

(** A JSON document.  The text column [json_content] and the strings that
    [json.dumps] returns are represented by the document they spell;
    [doc_text] gives the characters. *)
Inductive json :=
| JNull
| JBool (b : bool)
| JInt (n : Z)
| JFloat (f : pyfloat)
| JStr (s : string)
| JList (l : list json)
| JDict (d : list (string * json)).

Definition TypeError_not_serializable (type_name : string) : exn :=
  Exn "TypeError" ("Object of type " +:+ type_name +:+ " is not JSON serializable").

(** [type(o).__name__] *)
Definition type_name_of (o : pyval) : string :=
  match o with
  | PNone => "NoneType"
  | PBool _ => "bool"
  | PInt _ => "int"
  | PFloat _ => "float"
  | PStr _ => "str"
  | PList _ => "list"
  | PDict _ => "dict"
  | PDecimal _ => "Decimal"
  | PHttpRequest _ => "HttpRequest"
  | PObject type_name => type_name
  end.

(** [json.JSONEncoder.default], the hook of a plain [json.dumps(o)]: it
    raises [TypeError].  [DjangoJSONEncoder.default] does the same on every
    object modelled here. *)
Definition JSONEncoder_default (o : pyval) : outcome pyval :=
  Raise (TypeError_not_serializable (type_name_of o)).

(** [OpenIMISJSONEncoder.default]: a request becomes the text
    ["HTTP_user: <id>"] (or [None] without a user), a [Decimal] becomes a
    float, anything else is left to the parent class. *)
Definition OpenIMISJSONEncoder_default (o : pyval) : outcome pyval :=
  match o with
  | PHttpRequest user =>
      match user with
      | Some p => Return (PStr ("HTTP_user: " +:+ str_principal_id p))
      | None => Return PNone
      end
  | PDecimal d => Return (PFloat (decimal_float d))
  | _ => JSONEncoder_default o
  end.

(** The encoder on the values [default] hands back ([None], a string or a
    float): they are encoded natively. *)
Definition encode_replacement (v : pyval) : outcome json :=
  match v with
  | PNone => Return JNull
  | PBool b => Return (JBool b)
  | PInt n => Return (JInt n)
  | PFloat f => Return (JFloat f)
  | PStr s => Return (JStr s)
  | _ => Raise (TypeError_not_serializable (type_name_of v))
  end.

(** [json.dumps(o, default=...)]: native values are encoded as they are,
    containers element by element in order, and every other object goes
    through the [default] hook first. *)
Fixpoint dumps_with (default : pyval -> outcome pyval) (o : pyval) : outcome json :=
  match o with
  | PNone => Return JNull
  | PBool b => Return (JBool b)
  | PInt n => Return (JInt n)
  | PFloat f => Return (JFloat f)
  | PStr s => Return (JStr s)
  | PList l =>
      match
        (fix items (l : list pyval) : outcome (list json) :=
           match l with
           | [] => Return []
           | x :: l' =>
               match dumps_with default x with
               | Raise e => Raise e
               | Return j =>
                   match items l' with
                   | Raise e => Raise e
                   | Return js => Return (j :: js)
                   end
               end
           end) l
      with
      | Raise e => Raise e
      | Return js => Return (JList js)
      end
  | PDict d =>
      match
        (fix members (d : list (string * pyval)) : outcome (list (string * json)) :=
           match d with
           | [] => Return []
           | (k, x) :: d' =>
               match dumps_with default x with
               | Raise e => Raise e
               | Return j =>
                   match members d' with
                   | Raise e => Raise e
                   | Return js => Return ((k, j) :: js)
                   end
               end
           end) d
      with
      | Raise e => Raise e
      | Return js => Return (JDict js)
      end
  | PDecimal _ | PHttpRequest _ | PObject _ =>
      match default o with
      | Raise e => Raise e
      | Return v => encode_replacement v
      end
  end.

(** [json.dumps(o)] *)
Definition dumps (o : pyval) : outcome json := dumps_with JSONEncoder_default o.

(** [json.dumps(o, cls=OpenIMISJSONEncoder)] *)
Definition dumps_openimis (o : pyval) : outcome json :=
  dumps_with OpenIMISJSONEncoder_default o.

(** [json.loads]: the Python value a document denotes.  An object's members
    are stored one after the other, so a repeated key keeps its first
    position and its last value. *)
Fixpoint loads (j : json) : pyval :=
  match j with
  | JNull => PNone
  | JBool b => PBool b
  | JInt n => PInt n
  | JFloat f => PFloat f
  | JStr s => PStr s
  | JList l => PList (map loads l)
  | JDict d =>
      PDict (fold_left (fun acc kv => dict_set acc (fst kv) (loads (snd kv))) d [])
  end.

(** *** The text of a document *)

Definition hex_digit (n : N) : ascii :=
  ascii_of_N (if (n <? 10)%N then 48 + n else 87 + n).

(** One character inside a JSON string, as [json.dumps] writes it with
    [ensure_ascii]: quote, backslash and control characters are escaped, and
    so is everything outside the printable ASCII range. *)
Definition escape_char (c : ascii) : string :=
  let n := N_of_ascii c in
  if (n =? 34)%N then String "\" (String c "")
  else if (n =? 92)%N then "\\"
  else if (n =? 10)%N then "\n"
  else if (n =? 13)%N then "\r"
  else if (n =? 9)%N then "\t"
  else if (n =? 12)%N then "\f"
  else if (n =? 8)%N then "\b"
  else if ((32 <=? n) && (n <=? 126))%N then String c ""
  else "\u00" +:+ String (hex_digit (n / 16)) (String (hex_digit (n mod 16)) "").

Fixpoint escape (s : string) : string :=
  match s with
  | EmptyString => ""
  | String c s' => escape_char c +:+ escape s'
  end.

Definition quote (s : string) : string :=
  String (ascii_of_N 34) (escape s +:+ String (ascii_of_N 34) "").

(** [", ".join(parts)] *)
Fixpoint join (parts : list string) : string :=
  match parts with
  | [] => ""
  | [p] => p
  | p :: rest => p +:+ ", " +:+ join rest
  end.

(** The characters [json.dumps] returns for a document (default separators). *)
Fixpoint doc_text (j : json) : string :=
  match j with
  | JNull => "null"
  | JBool b => if b then "true" else "false"
  | JInt n => pretty n
  | JFloat f => float_repr f
  | JStr s => quote s
  | JList l => "[" +:+ join (map doc_text l) +:+ "]"
  | JDict d =>
      "{" +:+ join (map (fun kv => quote (fst kv) +:+ ": " +:+ doc_text (snd kv)) d) +:+ "}"
  end.

End Json.
Export Json.

(** ** The mutation log and the world around the pipeline *)

Module Store.

(** The lifecycle states of a record. *)
Inductive Status := RECEIVED | PENDING_EXECUTION | SUCCESS | FAILED.

Global Instance Status_eq_dec : EqDecision Status.
Proof. solve_decision. Defined.

(** What the pipeline hands to [mark_as_failed]: a text ([json.dumps(...)] or
    [str(exc)]), a handler's return value as it is, or the exception object
    as it is (the text column then receives [str(exc)]). *)
Inductive ErrorDetail :=
| Text (s : string)
| Structured (v : pyval)
| Fault (e : exn).

(** A row of [MutationLog].  [user] is the row the foreign key [user_id]
    points to. *)
Record MutationLog := {
  json_content : json;
  user : option User;
  client_mutation_id : pyval;
  client_mutation_label : pyval;
  status : Status;
  error : option ErrorDetail
}.

(** The message [openimis_mutation_async.delay] puts on the queue. *)
Record task_message := {
  task_mutation_id : nat;
  task_module : string;
  task_class_name : string
}.

(** The keyword arguments of a mutation signal. *)
Record signal_args := {
  sender : string * string;
  arg_mutation_log_id : nat;
  arg_data : pydict;
  arg_user : option principal;
  arg_mutation_module : string;
  arg_mutation_class : string
}.

(** Calls that leave the pipeline, in the order they happen: a subscriber
    was called (with what it answered), [async_mutate] was called, a warning
    was logged. *)
Inductive event :=
| Notified (receiver : string) (args : signal_args) (response : outcome (list pyval))
| Executed (module class_name : string) (user : option principal) (data : pydict)
| Warned (message : string).

(** Everything the pipeline reads and writes: the [MutationLog] table (a
    record's id is its position; rows are never deleted), the Celery queue,
    the active translation and the trace of outside calls. *)
Record world := {
  mutation_logs : list MutationLog;
  task_queue : list task_message;
  active_language : option string;
  trace : list event
}.

(** A validation subscriber connected to a signal. *)
Record Subscriber := {
  receiver_name : string;
  receive : signal_args -> outcome (list pyval)
}.

(** A concrete subclass of [OpenIMISMutation]. *)
Record MutationClass := {
  _mutation_module : string;
  _mutation_class : string;
  async_mutate : option principal -> pydict -> outcome pyval
}.

(** The process around the pipeline: the flag [core.async_mutations], the
    receivers of [signal_mutation], the dict [signal_mutation_module], the
    importable modules with the attributes of their [schema], and whether the
    database, the broker and [translation.activate] fail. *)
Record environment := {
  async_mutations : bool;
  signal_mutation : list Subscriber;
  signal_mutation_module : list (string * list Subscriber);
  installed_schemas : list (string * list (string * MutationClass));
  create_fault : option exn;
  delay_fault : option exn;
  activate_fault : language_value -> option exn
}.

(** *** State and exceptions *)

Definition M (A : Type) : Type := world -> outcome A * world.

Global Instance M_ret : MRet M := fun A a w => (Return a, w).

Global Instance M_bind : MBind M := fun A B f m w =>
  match m w with
  | (Return a, w') => f a w'
  | (Raise e, w') => (Raise e, w')
  end.

Definition raise {A} (e : exn) : M A := fun w => (Raise e, w).

Definition lift {A} (o : outcome A) : M A := fun w => (o, w).

(** [try: body / except Exception as exc: handler(exc)] *)
Definition try_except {A} (body : M A) (handler : exn -> M A) : M A := fun w =>
  match body w with
  | (Return a, w') => (Return a, w')
  | (Raise e, w') => handler e w'
  end.

Definition emit (ev : event) : M unit := fun w =>
  (Return tt,
   {| mutation_logs := mutation_logs w; task_queue := task_queue w;
      active_language := active_language w; trace := trace w ++ [ev] |}).

Definition set_logs (logs : list MutationLog) (w : world) : world :=
  {| mutation_logs := logs; task_queue := task_queue w;
     active_language := active_language w; trace := trace w |}.

(** *** The record store *)

Definition DoesNotExist : exn :=
  Exn "DoesNotExist" "MutationLog matching query does not exist.".

(** Modelled from the spec: [MutationLog.objects.create] of [core/models.py],
    which is not among the sources.  "Persist a new MutationRecord with
    status=RECEIVED"; the id is generated at creation; when the store is
    unavailable the call fails and nothing is written. *)
Definition MutationLog_create (env : environment) (content : json)
    (u : option User) (mutation_id label : pyval) : M nat := fun w =>
  match create_fault env with
  | Some e => (Raise e, w)
  | None =>
      (Return (length (mutation_logs w)),
       set_logs (mutation_logs w ++
                 [{| json_content := content; user := u;
                     client_mutation_id := mutation_id;
                     client_mutation_label := label;
                     status := RECEIVED; error := None |}]) w)
  end.

(** Modelled from the spec: [MutationLog.objects.get(id=...)],
    "get(record_id) -> MutationRecord | NotFound". *)
Definition MutationLog_get (mutation_id : nat) : M MutationLog := fun w =>
  match mutation_logs w !! mutation_id with
  | Some r => (Return r, w)
  | None => (Raise DoesNotExist, w)
  end.

(** Modelled from the spec: [MutationLog.mark_as_successful],
    "mark_success(record_id)": the status becomes [SUCCESS] and, the detail
    being "populated only when status = FAILED", none is kept; [NotFound] on
    an id that does not exist. *)
Definition mark_as_successful (mutation_id : nat) : M unit := fun w =>
  match mutation_logs w !! mutation_id with
  | Some r =>
      (Return tt,
       set_logs (<[mutation_id :=
                   {| json_content := json_content r; user := user r;
                      client_mutation_id := client_mutation_id r;
                      client_mutation_label := client_mutation_label r;
                      status := SUCCESS; error := None |}]>
                 (mutation_logs w)) w)
  | None => (Raise DoesNotExist, w)
  end.

(** Modelled from the spec: [MutationLog.mark_as_failed],
    "mark_failed(record_id, detail)": the status becomes [FAILED] and the
    detail is stored; [NotFound] on an id that does not exist. *)
Definition mark_as_failed (mutation_id : nat) (detail : ErrorDetail) : M unit := fun w =>
  match mutation_logs w !! mutation_id with
  | Some r =>
      (Return tt,
       set_logs (<[mutation_id :=
                   {| json_content := json_content r; user := user r;
                      client_mutation_id := client_mutation_id r;
                      client_mutation_label := client_mutation_label r;
                      status := FAILED; error := Some detail |}]>
                 (mutation_logs w)) w)
  | None => (Raise DoesNotExist, w)
  end.

End Store.
Export Store.

(** ** Collaborators: signals, translation, Celery, imports *)

Module Django.

(** [Signal.send]: every receiver is called in the order it was connected and
    its response is paired with it; an exception raised by a receiver
    propagates at once and ends the loop. *)
Fixpoint send (receivers : list Subscriber) (args : signal_args)
    : M (list (string * list pyval)) :=
  match receivers with
  | [] => mret []
  | r :: rest =>
      emit (Notified (receiver_name r) args (receive r args));;
      response ← lift (receive r args);
      responses ← send rest args;
      mret ((receiver_name r, response) :: responses)
  end.

(** [translation.activate(language)] *)
Definition translation_activate (env : environment) (lang : language_value) : M unit :=
  fun w =>
    match activate_fault env lang with
    | Some e => (Raise e, w)
    | None =>
        (Return tt,
         {| mutation_logs := mutation_logs w; task_queue := task_queue w;
            active_language :=
              Some (match lang with LanguageRow c | LanguageCode c => c end);
            trace := trace w |})
    end.

(** Truth value of [user.language]: [None] and the empty code are false. *)
Definition language_truthy (l : option language_value) : bool :=
  match l with
  | None => false
  | Some (LanguageCode c) => negb (String.eqb c "")
  | Some (LanguageRow _) => true
  end.

(** [signal_mutation_module[module]], a dict lookup. *)
Fixpoint signal_of_module (signals : list (string * list Subscriber)) (module : string)
    : outcome (list Subscriber) :=
  match signals with
  | [] => Raise (Exn "KeyError" ("'" +:+ module +:+ "'"))
  | (m, s) :: rest => if String.eqb module m then Return s else signal_of_module rest module
  end.

(** [openimis_mutation_async.delay(...)]: the message goes on the queue,
    unless the broker fails. *)
Definition delay (env : environment) (mutation_id : nat) (module class_name : string)
    : M unit := fun w =>
  match delay_fault env with
  | Some e => (Raise e, w)
  | None =>
      (Return tt,
       {| mutation_logs := mutation_logs w;
          task_queue := task_queue w ++
            [{| task_mutation_id := mutation_id; task_module := module;
                task_class_name := class_name |}];
          active_language := active_language w; trace := trace w |})
  end.

(** Calling a class's [async_mutate]: the call is recorded, then its outcome
    is the handler's. *)
Definition call_async_mutate (cls : MutationClass) (u : option principal) (data : pydict)
    : M pyval :=
  emit (Executed (_mutation_module cls) (_mutation_class cls) u data);;
  lift (async_mutate cls u data).

Fixpoint assoc {A} (l : list (string * A)) (k : string) : option A :=
  match l with
  | [] => None
  | (k', v) :: rest => if String.eqb k k' then Some v else assoc rest k
  end.

(** [getattr(__import__(f"{module}.schema").schema, class_name)] *)
Definition resolve (env : environment) (module class_name : string) : outcome MutationClass :=
  match assoc (installed_schemas env) module with
  | None => Raise (Exn "ModuleNotFoundError" ("No module named '" +:+ module +:+ "'"))
  | Some attrs =>
      match assoc attrs class_name with
      | None =>
          Raise (Exn "AttributeError"
                   ("module '" +:+ module +:+ ".schema' has no attribute '"
                    +:+ class_name +:+ "'"))
      | Some cls => Return cls
      end
  end.

(** Passing [v] as keyword arguments (the double-star call): the value must
    be a mapping. *)
Definition kwargs (v : pyval) : outcome pydict :=
  match v with
  | PDict d => Return d
  | _ =>
      Raise (Exn "TypeError"
               ("argument after ** must be a mapping, not " +:+ type_name_of v))
  end.

End Django.
Export Django.

(** ** [core/schema.py]: the coordinator *)

Module Schema.

(** Lines 136-141 of [mutate_and_get_payload]: activate the language of the
    acting user.  Reading [language] off the anonymous user raises
    [AttributeError]. *)
Definition activate_user_language (env : environment) (info_user : option principal)
    : M unit :=
  match info_user with
  | None => mret tt
  | Some AnonymousUser =>
      raise (Exn "AttributeError" "'AnonymousUser' object has no attribute 'language'")
  | Some (Authenticated u) =>
      if language_truthy (language u) then
        match language u with
        | Some (LanguageRow code) => translation_activate env (LanguageCode code)
        | Some (LanguageCode code) => translation_activate env (LanguageCode code)
        | None => mret tt
        end
      else mret tt
  end.

Definition signal_args_of (cls : MutationClass) (mutation_log_id : nat)
    (info_user : option principal) (data : pydict) : signal_args :=
  {| sender := (_mutation_module cls, _mutation_class cls);
     arg_mutation_log_id := mutation_log_id;
     arg_data := data;
     arg_user := info_user;
     arg_mutation_module := _mutation_module cls;
     arg_mutation_class := _mutation_class cls |}.

(** [[err for r in results for err in r[1]]] *)
Definition collect_errors (results : list (string * list pyval)) : list pyval :=
  concat (map snd results).

(** The user row a new record points to: [info.context.user.id if
    info.context.user else None]. *)
Definition submitter (info_user : option principal) : option User :=
  match info_user with
  | Some (Authenticated u) => Some u
  | _ => None
  end.

(** Lines 144-151: both signals are sent, the global one first, and the
    errors of all responses are gathered. *)
Definition validate (env : environment) (cls : MutationClass) (args : signal_args)
    : M (list pyval) :=
  results ← send (signal_mutation env) args;
  module_signal ← lift (signal_of_module (signal_mutation_module env) (_mutation_module cls));
  more ← send module_signal args;
  mret (collect_errors (results ++ more)).

(** The body of the [try] block of [mutate_and_get_payload] (lines 144-166).
    Its early [return] and the final one give back the same value, so the
    block is taken to its end on either path. *)
Definition process (env : environment) (cls : MutationClass)
    (info_user : option principal) (data : pydict) (mutation_log_id : nat) : M unit :=
  errors ← validate env cls (signal_args_of cls mutation_log_id info_user data);
  if truthy (PList errors) then
    text ← lift (dumps (PList errors));
    mark_as_failed mutation_log_id (Text (doc_text text))
  else
    error_messages ←
      (if async_mutations env then
         delay env mutation_log_id (_mutation_module cls) (_mutation_class cls);;
         mret PNone
       else call_async_mutate cls info_user data);
    if negb (truthy error_messages) then mark_as_successful mutation_log_id
    else
      text ← lift (dumps error_messages);
      mark_as_failed mutation_log_id (Text (doc_text text)).

(** Lines 130-141: the record is created, then the language is activated. *)
Definition receive_mutation (env : environment) (info_user : option principal)
    (data : pydict) : M nat :=
  content ← lift (dumps_openimis (PDict data));
  mutation_log_id ←
    MutationLog_create env content (submitter info_user)
      (dict_get data "client_mutation_id") (dict_get data "client_mutation_label");
  activate_user_language env info_user;;
  mret mutation_log_id.

(** [OpenIMISMutation.mutate_and_get_payload(cls, root, info, data)], with
    [info_user] for [info.context.user]; the result is the [internal_id] of
    the payload. *)
Definition mutate_and_get_payload (env : environment) (cls : MutationClass)
    (info_user : option principal) (data : pydict) : M nat :=
  mutation_log_id ← receive_mutation env info_user data;
  try_except
    (process env cls info_user data mutation_log_id)
    (fun exc => mark_as_failed mutation_log_id (Fault exc));;
  mret mutation_log_id.

End Schema.
Export Schema.

(** ** [core/tasks.py]: the task executor *)

Module Tasks.

Definition warning_text (mutation_id : nat) : string :=
  "Exception while processing mutation id " +:+ pretty (Z.of_nat mutation_id).

(** Lines 26-37: what follows the load of the record inside the [try]. *)
Definition execute (env : environment) (mutation_id : nat) (mutation : MutationLog)
    (module class_name : string) : M string :=
  mutation_class ← lift (resolve env module class_name);
  (match user mutation with
   | Some u =>
       if language_truthy (language u) then
         match language u with
         | Some lang => translation_activate env lang
         | None => mret tt
         end
       else mret tt
   | None => mret tt
   end);;
  data ← lift (kwargs (loads (json_content mutation)));
  result ← call_async_mutate mutation_class (Authenticated <$> user mutation) data;
  (if truthy result then mark_as_failed mutation_id (Structured result)
   else mark_as_successful mutation_id);;
  mret "OK".

(** [openimis_mutation_async(mutation_id, module, class_name)].  When the
    load fails [mutation] is still [None] in the handler, so nothing is
    marked; after the load every exception marks the record. *)
Definition openimis_mutation_async (env : environment) (mutation_id : nat)
    (module class_name : string) : M string :=
  fun w =>
    match MutationLog_get mutation_id w with
    | (Raise exc, w1) =>
        (emit (Warned (warning_text mutation_id));; raise exc) w1
    | (Return mutation, w1) =>
        try_except
          (execute env mutation_id mutation module class_name)
          (fun exc =>
             mark_as_failed mutation_id (Text (exn_str exc));;
             emit (Warned (warning_text mutation_id));;
             raise exc) w1
    end.

End Tasks.
Export Tasks.

(** ** The read path of [core/schema.py] *)

Module Query.

(** Characters are code points below 256. *)
Definition is_upper (c : ascii) : bool :=
  let n := N_of_ascii c in ((65 <=? n) && (n <=? 90))%N.

Definition is_lower (c : ascii) : bool :=
  let n := N_of_ascii c in ((97 <=? n) && (n <=? 122))%N.

Definition is_digit (c : ascii) : bool :=
  let n := N_of_ascii c in ((48 <=? n) && (n <=? 57))%N.

Definition is_newline (c : ascii) : bool := (N_of_ascii c =? 10)%N.

(** [re.sub("(.)([A-Z][a-z]+)", r"\1_\2", name)]: scanning from the left, a
    character other than a newline that is followed by a capital and at least
    one small letter gets an underscore after it; the match takes in all the
    small letters that follow ([in_run] says the scan is still inside them). *)
Fixpoint sub_capitalised (in_run : bool) (s : string) : string :=
  match s with
  | EmptyString => EmptyString
  | String c rest =>
      if in_run && is_lower c then String c (sub_capitalised true rest)
      else
        match rest with
        | String u (String l rest') =>
            if negb (is_newline c) && is_upper u && is_lower l
            then String c (String "_" (String u (String l (sub_capitalised true rest'))))
            else String c (sub_capitalised false rest)
        | _ => String c (sub_capitalised false rest)
        end
  end.

(** [re.sub("([a-z0-9])([A-Z])", r"\1_\2", s)] *)
Fixpoint sub_boundary (s : string) : string :=
  match s with
  | EmptyString => EmptyString
  | String c rest =>
      match rest with
      | String u rest' =>
          if (is_lower c || is_digit c) && is_upper u
          then String c (String "_" (String u (sub_boundary rest')))
          else String c (sub_boundary rest)
      | EmptyString => String c EmptyString
      end
  end.

(** [str.lower] on one character. *)
Definition lower_char (c : ascii) : ascii :=
  let n := N_of_ascii c in
  if (((65 <=? n) && (n <=? 90)) || ((192 <=? n) && (n <=? 222) && negb (n =? 215)))%N
  then ascii_of_N (n + 32)
  else c.

Fixpoint lower (s : string) : string :=
  match s with
  | EmptyString => EmptyString
  | String c rest => String (lower_char c) (lower rest)
  end.

(** [graphene.utils.str_converters.to_snake_case] *)
Definition to_snake_case (name : string) : string :=
  lower (sub_boundary (sub_capitalised false name)).

(** An argument of [order_by]: a field name or a raw SQL expression. *)
Inductive order_expr :=
| Field (name : string)
| RawSQL (sql : string) (params : list pyval).

(** A queryset over the mutation log: its rows and its [ORDER BY] clause. *)
Record QuerySet := {
  rows : list MutationLog;
  order_by_clause : list order_expr
}.

(** [qs.order_by] applied to the unpacked [fields]: the clause is replaced. *)
Definition order_by (qs : QuerySet) (fields : list order_expr) : QuerySet :=
  {| rows := rows qs; order_by_clause := fields |}.

(** [qs.none()] *)
Definition none (qs : QuerySet) : QuerySet :=
  {| rows := []; order_by_clause := order_by_clause qs |}.

(** [qs.filter(user=u)] *)
Definition filter_user (qs : QuerySet) (u : principal) : QuerySet :=
  {| rows :=
       List.filter
         (fun r =>
            match user r, principal_id u with
            | Some owner, Some n => Z.eqb (user_id owner) n
            | _, _ => false
            end) (rows qs);
     order_by_clause := order_by_clause qs |}.

(** The value of [args.get('orderBy', None)] when it is given. *)
Inductive order_arg :=
| OrderStr (s : string)
| OrderList (keys : list string).

Definition order_truthy (order : option order_arg) : bool :=
  match order with
  | None => false
  | Some (OrderStr s) => negb (String.eqb s "")
  | Some (OrderList keys) => match keys with [] => false | _ => true end
  end.

Definition NEWID : order_expr := RawSQL "NEWID()" [].

(** One key of the list comprehension of lines 213-217. *)
Definition snake_key (o : string) : order_expr :=
  if negb (String.eqb o "?") then Field (to_snake_case o) else NEWID.

(** The characters of a string, one string each (a string unpacked by a
    star). *)
Fixpoint characters (s : string) : list string :=
  match s with
  | EmptyString => []
  | String c rest => String c EmptyString :: characters rest
  end.

(** Lines 204-218 of [connection_resolver]: the queryset handed on to the
    parent resolver. *)
Definition connection_resolver (qs : QuerySet) (order : option order_arg)
    : outcome QuerySet :=
  if order_truthy order then
    match order with
    | Some (OrderStr s) =>
        if String.eqb s "?"
        then Raise (Exn "TypeError"
                      "order_by() argument after * must be an iterable, not RawSQL")
        else Return (order_by qs (map Field (characters (to_snake_case s))))
    | Some (OrderList keys) => Return (order_by qs (map snake_key keys))
    | None => Return qs
    end
  else Return qs.

(** [MutationLogGQLType.get_queryset(queryset, info)], with [requester] for
    [info.context.user]. *)
Definition get_queryset (queryset : QuerySet) (requester : principal) : QuerySet :=
  if is_anonymous requester then none queryset
  else if is_superuser requester then queryset
  else filter_user queryset requester.

End Query.
Export Query.

(** * Vocabulary of the properties *)

(** ** The pipeline without the state *)

(** The world after more events were recorded. *)
Definition add_events (w : world) (evs : list event) : world :=
  {| mutation_logs := mutation_logs w; task_queue := task_queue w;
     active_language := active_language w; trace := trace w ++ evs |}.

(** What [Signal.send] returns: the responses of all receivers, or the
    exception of the first one that raises. *)
Fixpoint responses (receivers : list Subscriber) (args : signal_args)
    : outcome (list (string * list pyval)) :=
  match receivers with
  | [] => Return []
  | r :: rest =>
      match receive r args with
      | Raise e => Raise e
      | Return response =>
          match responses rest args with
          | Raise e => Raise e
          | Return others => Return ((receiver_name r, response) :: others)
          end
      end
  end.

(** The receivers [Signal.send] calls: each one in turn, up to and including
    the first one that raises. *)
Fixpoint called (receivers : list Subscriber) (args : signal_args) : list Subscriber :=
  match receivers with
  | [] => []
  | r :: rest =>
      r :: match receive r args with
           | Raise _ => []
           | Return _ => called rest args
           end
  end.

(** The event a call of [r] leaves in the trace. *)
Definition notification (args : signal_args) (r : Subscriber) : event :=
  Notified (receiver_name r) args (receive r args).

(** The subscribers a submission of [cls] addresses: those of the global
    signal, then those of the signal of its module. *)
Definition subscribers (env : environment) (cls : MutationClass) : list Subscriber :=
  signal_mutation env ++
  match signal_of_module (signal_mutation_module env) (_mutation_module cls) with
  | Return module_signal => module_signal
  | Raise _ => []
  end.

(** The outcome of lines 144-151, without the state. *)
Definition validation (env : environment) (cls : MutationClass) (args : signal_args)
    : outcome (list pyval) :=
  match responses (signal_mutation env) args with
  | Raise e => Raise e
  | Return results =>
      match signal_of_module (signal_mutation_module env) (_mutation_module cls) with
      | Raise e => Raise e
      | Return module_signal =>
          match responses module_signal args with
          | Raise e => Raise e
          | Return more => Return (collect_errors (results ++ more))
          end
      end
  end.

(** A record after [mark_as_successful] ([None]) or [mark_as_failed]. *)
Definition marked (verdict : option ErrorDetail) (r : MutationLog) : MutationLog :=
  {| json_content := json_content r; user := user r;
     client_mutation_id := client_mutation_id r;
     client_mutation_label := client_mutation_label r;
     status := match verdict with None => SUCCESS | Some _ => FAILED end;
     error := verdict |}.

(** The record [MutationLog.objects.create] writes at line 130. *)
Definition fresh_record (content : json) (info_user : option principal) (data : pydict)
    : MutationLog :=
  {| json_content := content; user := submitter info_user;
     client_mutation_id := dict_get data "client_mutation_id";
     client_mutation_label := dict_get data "client_mutation_label";
     status := RECEIVED; error := None |}.

(** Lines 155-162 without the state: what [error_messages] becomes. *)
Definition execution (env : environment) (cls : MutationClass)
    (info_user : option principal) (data : pydict) : outcome pyval :=
  if async_mutations env then
    match delay_fault env with
    | Some e => Raise e
    | None => Return PNone
    end
  else async_mutate cls info_user data.

(** [json.dumps(v)] as an error detail. *)
Definition serialized (v : pyval) : outcome ErrorDetail :=
  match dumps v with
  | Raise e => Raise e
  | Return doc => Return (Text (doc_text doc))
  end.

(** How the [try] block ends: it marks the record successful ([None]) or
    failed with a detail, or it raises. *)
Definition conclusion (env : environment) (cls : MutationClass)
    (info_user : option principal) (data : pydict) (args : signal_args)
    : outcome (option ErrorDetail) :=
  match validation env cls args with
  | Raise e => Raise e
  | Return errors =>
      if truthy (PList errors) then
        match serialized (PList errors) with
        | Raise e => Raise e
        | Return d => Return (Some d)
        end
      else
        match execution env cls info_user data with
        | Raise e => Raise e
        | Return error_messages =>
            if negb (truthy error_messages) then Return None
            else
              match serialized error_messages with
              | Raise e => Raise e
              | Return d => Return (Some d)
              end
        end
  end.

(** The mark a submission leaves on its record, the handler of the [try]
    block included. *)
Definition verdict (env : environment) (cls : MutationClass)
    (info_user : option principal) (data : pydict) (args : signal_args)
    : option ErrorDetail :=
  match conclusion env cls info_user data args with
  | Return v => v
  | Raise e => Some (Fault e)
  end.

(** Validation passed: the fan-out returned and gathered no error. *)
Definition accepted (env : environment) (cls : MutationClass) (args : signal_args) : bool :=
  match validation env cls args with
  | Return errors => negb (truthy (PList errors))
  | Raise _ => false
  end.

(** The outside calls of a submission: the subscribers that were called,
    then the handler when validation passed in synchronous mode. *)
Definition submission_events (env : environment) (cls : MutationClass)
    (info_user : option principal) (data : pydict) (args : signal_args) : list event :=
  map (notification args) (called (subscribers env cls) args) ++
  (if accepted env cls args && negb (async_mutations env)
   then [Executed (_mutation_module cls) (_mutation_class cls) info_user data]
   else []).

(** What a submission puts on the queue: one message when validation passed
    in asynchronous mode and the broker took it. *)
Definition submission_messages (env : environment) (cls : MutationClass)
    (mutation_log_id : nat) (args : signal_args) : list task_message :=
  if accepted env cls args && async_mutations env &&
     match delay_fault env with None => true | Some _ => false end
  then [{| task_mutation_id := mutation_log_id;
           task_module := _mutation_module cls;
           task_class_name := _mutation_class cls |}]
  else [].

(** The world once record [mutation_id] was rewritten as [r], the messages
    were queued and the events recorded. *)
Definition settled (w : world) (mutation_id : nat) (r : MutationLog)
    (messages : list task_message) (evs : list event) : world :=
  {| mutation_logs := <[mutation_id := r]> (mutation_logs w);
     task_queue := task_queue w ++ messages;
     active_language := active_language w;
     trace := trace w ++ evs |}.

(** ** The task without the state *)

(** The language line 30 activates: [mutation.user.language] when there is a
    user and the language is not empty. *)
Definition task_language (mutation : MutationLog) : option language_value :=
  match user mutation with
  | Some u => if language_truthy (language u) then language u else None
  | None => None
  end.

(** Lines 27-31 up to the call: the class is resolved, the language is
    activated and the stored payload is read back; the first fault wins. *)
Definition task_prepared (env : environment) (mutation : MutationLog)
    (module class_name : string) : outcome (MutationClass * pydict) :=
  match resolve env module class_name with
  | Raise e => Raise e
  | Return mutation_class =>
      match match task_language mutation with
            | Some lang => activate_fault env lang
            | None => None
            end with
      | Some e => Raise e
      | None =>
          match kwargs (loads (json_content mutation)) with
          | Raise e => Raise e
          | Return data => Return (mutation_class, data)
          end
      end
  end.

(** What [result] becomes at line 31, or the fault raised before. *)
Definition task_result (env : environment) (mutation : MutationLog)
    (module class_name : string) : outcome pyval :=
  match task_prepared env mutation module class_name with
  | Raise e => Raise e
  | Return (mutation_class, data) =>
      async_mutate mutation_class (Authenticated <$> user mutation) data
  end.

Definition task_call (env : environment) (mutation : MutationLog)
    (module class_name : string) : list event :=
  match task_prepared env mutation module class_name with
  | Raise _ => []
  | Return (mutation_class, data) =>
      [Executed (_mutation_module mutation_class) (_mutation_class mutation_class)
         (Authenticated <$> user mutation) data]
  end.

Definition task_active_language (env : environment) (mutation : MutationLog)
    (module class_name : string) (before : option string) : option string :=
  match resolve env module class_name, task_language mutation with
  | Return _, Some lang =>
      match activate_fault env lang with
      | Some _ => before
      | None => Some (match lang with LanguageRow c | LanguageCode c => c end)
      end
  | _, _ => before
  end.

(** The mark the task leaves on a record it could load. *)
Definition task_verdict (env : environment) (mutation : MutationLog)
    (module class_name : string) : option ErrorDetail :=
  match task_result env mutation module class_name with
  | Raise exc => Some (Text (exn_str exc))
  | Return result => if truthy result then Some (Structured result) else None
  end.

(** ** Concrete submissions *)

Module Scenario.

Definition empty_world : world :=
  {| mutation_logs := []; task_queue := []; active_language := None; trace := [] |}.

Definition alice : User :=
  {| user_id := 7; is_superuser_flag := false; language := Some (LanguageCode "en") |}.

(** A handler that succeeds, one that reports an error, one that raises. *)
Definition ChargeCard : MutationClass :=
  {| _mutation_module := "billing"; _mutation_class := "ChargeCard";
     async_mutate := fun _ _ => Return PNone |}.

Definition RefusedCard : MutationClass :=
  {| _mutation_module := "billing"; _mutation_class := "RefusedCard";
     async_mutate := fun _ _ => Return (PList [PStr "card refused"]) |}.

Definition network_timeout : exn := Exn "Exception" "network timeout".

Definition SlowCard : MutationClass :=
  {| _mutation_module := "billing"; _mutation_class := "SlowCard";
     async_mutate := fun _ _ => Raise network_timeout |}.

(** A handler that raises an exception without a message, as a failed
    [assert] does. *)
Definition AssertingCard : MutationClass :=
  {| _mutation_module := "billing"; _mutation_class := "AssertingCard";
     async_mutate := fun _ _ => Raise (Exn "AssertionError" "") |}.

Definition billing_schema : list (string * MutationClass) :=
  [("ChargeCard", ChargeCard); ("RefusedCard", RefusedCard);
   ("SlowCard", SlowCard); ("AssertingCard", AssertingCard)].

Definition funds_check : Subscriber :=
  {| receiver_name := "funds_check";
     receive := fun _ => Return [PStr "insufficient funds"] |}.

Definition audit_log : Subscriber :=
  {| receiver_name := "audit_log"; receive := fun _ => Return [] |}.

Definition broken_check : Subscriber :=
  {| receiver_name := "broken_check";
     receive := fun _ => Raise (Exn "RuntimeError" "rule engine down") |}.

Definition limit_check : Subscriber :=
  {| receiver_name := "limit_check";
     receive := fun _ => Return [PStr "limit exceeded"] |}.

(** A process with the given mode and subscribers, where the database, the
    broker and the translations work. *)
Definition process_with (async : bool) (global billing : list Subscriber) : environment :=
  {| async_mutations := async;
     signal_mutation := global;
     signal_mutation_module := [("core", []); ("billing", billing)];
     installed_schemas := [("billing", billing_schema)];
     create_fault := None;
     delay_fault := None;
     activate_fault := fun _ => None |}.

Definition payload : pydict := [("amount", PInt 100)].

End Scenario.
Import Scenario.

(** ** Events, payloads and sequences of operations *)

(** The events a run added to the trace. *)
Definition new_events (before after : world) : list event :=
  drop (length (trace before)) (trace after).

Definition is_execution (ev : event) : bool :=
  match ev with Executed _ _ _ _ => true | _ => false end.

Definition is_notification (ev : event) : bool :=
  match ev with Notified _ _ _ => true | _ => false end.

(** What a subscriber contributes to the gathered errors. *)
Definition answer (args : signal_args) (r : Subscriber) : list pyval :=
  match receive r args with
  | Return errs => errs
  | Raise _ => []
  end.

Definition returns (args : signal_args) (r : Subscriber) : Prop :=
  exists errs, receive r args = Return errs.

Fixpoint distinct (keys : list string) : bool :=
  match keys with
  | [] => true
  | k :: rest => negb (existsb (String.eqb k) rest) && distinct rest
  end.

(** A value made of what JSON has: [None], booleans, integers, floats,
    strings, lists, and dicts, whose keys are distinct as in any dict. *)
Fixpoint native (v : pyval) : bool :=
  match v with
  | PNone | PBool _ | PInt _ | PFloat _ | PStr _ => true
  | PList l => forallb native l
  | PDict d => forallb (fun kv => native (snd kv)) d && distinct (map fst d)
  | PDecimal _ | PHttpRequest _ | PObject _ => false
  end.

(** The arguments [async_mutate] was called with, call by call. *)
Fixpoint handler_arguments (evs : list event) : list (option principal * pydict) :=
  match evs with
  | [] => []
  | Executed _ _ u data :: rest => (u, data) :: handler_arguments rest
  | _ :: rest => handler_arguments rest
  end.

(** [Decimal("1.10")], whose float is [1.1]. *)
Definition one_point_ten : Decimal :=
  {| decimal_float := PyFloat "1"%char ".1"; decimal_nonzero := true |}.

(** What can happen to the mutation log: a submission through the
    coordinator, or a run of the task executor (on any id, so also a retry or
    a run on a record that was never queued). *)
Inductive operation :=
| Submit (env : environment) (cls : MutationClass) (info_user : option principal)
    (data : pydict)
| Run (env : environment) (mutation_id : nat) (module class_name : string).

Definition perform (op : operation) (w : world) : world :=
  match op with
  | Submit env cls info_user data =>
      snd (mutate_and_get_payload env cls info_user data w)
  | Run env mutation_id module class_name =>
      snd (openimis_mutation_async env mutation_id module class_name w)
  end.

Definition perform_all (ops : list operation) (w : world) : world :=
  fold_left (fun w op => perform op w) ops w.

(** How far a record has come: received, pending, finished. *)
Definition rank (s : Status) : nat :=
  match s with
  | RECEIVED => 0
  | PENDING_EXECUTION => 1
  | SUCCESS | FAILED => 2
  end.

Definition terminal (s : Status) : bool :=
  match s with
  | SUCCESS | FAILED => true
  | RECEIVED | PENDING_EXECUTION => false
  end.

(** A detail that says something: a text with at least one character, a
    handler's value that is not empty, an exception whose text (what the text
    column receives) is not empty. *)
Definition detail_nonempty (d : ErrorDetail) : bool :=
  match d with
  | Text s => negb (String.eqb s "")
  | Structured v => truthy v
  | Fault e => negb (String.eqb (exn_str e) "")
  end.

(** A detail is stored exactly when the record is [FAILED]. *)
Definition populated_iff_failed (r : MutationLog) : Prop :=
  (exists d, error r = Some d) <-> status r = FAILED.

(** A non-empty detail is stored exactly when the record is [FAILED]. *)
Definition detailed_iff_failed (r : MutationLog) : Prop :=
  match error r with
  | Some d => status r = FAILED /\ detail_nonempty d = true
  | None => status r <> FAILED
  end.

(** Every fault the operation can raise where its [try] block catches it
    carries a text. *)
Definition faults_have_text (op : operation) : Prop :=
  match op with
  | Submit env cls info_user data =>
      forall mutation_log_id e,
        conclusion env cls info_user data
          (signal_args_of cls mutation_log_id info_user data) = Raise e ->
        exn_str e <> ""
  | Run env mutation_id module class_name =>
      forall mutation e,
        task_result env mutation module class_name = Raise e -> exn_str e <> ""
  end.

(** What an operation writes: a record as created, or a record as marked. *)
Definition writes (P : MutationLog -> Prop) (op : operation) : Prop :=
  match op with
  | Submit env cls info_user data =>
      forall content mutation_log_id,
        P (fresh_record content info_user data) /\
        P (marked (verdict env cls info_user data
                     (signal_args_of cls mutation_log_id info_user data))
                  (fresh_record content info_user data))
  | Run env mutation_id module class_name =>
      forall mutation, P (marked (task_verdict env mutation module class_name) mutation)
  end.

(** ** The scalars [SmallInt] and [TinyInt] of [core/schema.py] *)

Module Scalars.

Definition MAX_SMALLINT : Z := 32767.
Definition MIN_SMALLINT : Z := -32768.
Definition MAX_TINYINT : Z := 255.
Definition MIN_TINYINT : Z := 0.

(** The bounds of [graphene.Int]. *)
Definition MAX_INT : Z := 2147483647.
Definition MIN_INT : Z := -2147483648.

(** A literal of a GraphQL document, the [ast] node [parse_literal] is
    given.  [IntValue] holds the integer its text spells. *)
Inductive ast :=
| IntValue (value : Z)
| FloatValue (value : string)
| StringValue (value : string)
| BooleanValue (value : bool)
| EnumValue (value : string)
| ListValue (values : list ast)
| ObjectValue (fields : list (string * ast)).

(** [graphene.Int.parse_literal]: an integer literal within 32 bits, else
    [None]. *)
Definition Int_parse_literal (node : ast) : option Z :=
  match node with
  | IntValue value =>
      let num := value in
      if ((MIN_INT <=? num) && (num <=? MAX_INT))%Z then Some num else None
  | _ => None
  end.

(** [SmallInt.parse_literal] *)
Definition SmallInt_parse_literal (node : ast) : option Z :=
  match Int_parse_literal node with
  | Some result =>
      if ((MIN_SMALLINT <=? result) && (result <=? MAX_SMALLINT))%Z then Some result else None
  | None => None
  end.

(** [TinyInt.parse_literal] *)
Definition TinyInt_parse_literal (node : ast) : option Z :=
  match Int_parse_literal node with
  | Some result =>
      if ((MIN_TINYINT <=? result) && (result <=? MAX_TINYINT))%Z then Some result else None
  | None => None
  end.

End Scalars.
Export Scalars.

(** ** [Query.resolve_module_configurations] of [core/schema.py] *)

Module Configurations.

(** A naive [datetime.datetime]. *)
Record datetime := {
  year : Z;
  month : Z;
  day : Z;
  hour : Z;
  minute : Z;
  second : Z;
  microsecond : Z
}.

Definition is_leap (y : Z) : bool :=
  (y mod 4 =? 0)%Z && (negb (y mod 100 =? 0)%Z || (y mod 400 =? 0)%Z).

Definition days_in_month (y m : Z) : Z :=
  if (m =? 2)%Z then (if is_leap y then 29 else 28)
  else if (m =? 4)%Z || (m =? 6)%Z || (m =? 9)%Z || (m =? 11)%Z then 30
  else 31.

(** The largest C [int], which the constructor's arguments are read into. *)
Definition INT_MAX : Z := 2147483647.

Definition between (lo n hi : Z) : bool := ((lo <=? n) && (n <=? hi))%Z.

(** [datetime.datetime] called with the positional arguments [args], at most
    six of them and none negative, as line 282 calls it: year, month and day
    are required, the time defaults to midnight; the arguments are read
    first, then checked in order. *)
Definition py_datetime (args : list Z) : outcome datetime :=
  if existsb (fun n => (INT_MAX <? n)%Z) args then
    Raise (Exn "OverflowError" "signed integer is greater than maximum")
  else
    match args with
    | [] => Raise (Exn "TypeError" "function missing required argument 'year' (pos 1)")
    | [_] => Raise (Exn "TypeError" "function missing required argument 'month' (pos 2)")
    | [_; _] => Raise (Exn "TypeError" "function missing required argument 'day' (pos 3)")
    | y :: m :: d :: time =>
        let h := nth 0 time 0 in
        let mi := nth 1 time 0 in
        let s := nth 2 time 0 in
        if negb (between 1 y 9999) then
          Raise (Exn "ValueError" ("year " +:+ pretty y +:+ " is out of range"))
        else if negb (between 1 m 12) then
          Raise (Exn "ValueError" "month must be in 1..12")
        else if negb (between 1 d (days_in_month y m)) then
          Raise (Exn "ValueError" "day is out of range for month")
        else if negb (between 0 h 23) then
          Raise (Exn "ValueError" "hour must be in 0..23")
        else if negb (between 0 mi 59) then
          Raise (Exn "ValueError" "minute must be in 0..59")
        else if negb (between 0 s 59) then
          Raise (Exn "ValueError" "second must be in 0..59")
        else
          Return {| year := y; month := m; day := d; hour := h; minute := mi;
                    second := s; microsecond := 0 |}
    end.

(** [re.split('\D', s)]: the runs of digits between the characters that are
    not digits; a run may be empty. *)
Fixpoint re_split_non_digit (s : string) : list string :=
  match s with
  | EmptyString => [EmptyString]
  | String c rest =>
      if is_digit c then
        match re_split_non_digit rest with
        | run :: runs => String c run :: runs
        | [] => [String c EmptyString]
        end
      else EmptyString :: re_split_non_digit rest
  end.

Definition digit_value (c : ascii) : Z := Z.of_N (N_of_ascii c) - 48.

(** The number a run of digits spells, after [acc]. *)
Fixpoint int_digits (acc : Z) (x : string) : Z :=
  match x with
  | EmptyString => acc
  | String c rest => int_digits (10 * acc + digit_value c) rest
  end.

(** [sys.get_int_max_str_digits()], the interpreter's default. *)
Definition int_max_str_digits : nat := 4300.

(** [int(text)] for a text of digits. *)
Definition int (text : string) : outcome Z :=
  if (int_max_str_digits <? String.length text)%nat then
    Raise (Exn "ValueError"
             ("Exceeds the limit (4300 digits) for integer string conversion: value has "
              +:+ pretty (Z.of_nat (String.length text))
              +:+ " digits; use sys.set_int_max_str_digits() to increase the limit"))
  else Return (int_digits 0 text).

(** [[int('0' + x) for x in d]] *)
Fixpoint int_each (d : list string) : outcome (list Z) :=
  match d with
  | [] => Return []
  | x :: rest =>
      match int (String "0" x) with
      | Raise e => Raise e
      | Return n =>
          match int_each rest with
          | Raise e => Raise e
          | Return ns => Return (n :: ns)
          end
      end
  end.

(** Lines 281-282: the instant a [validity] argument spells. *)
Definition validity_of_text (validity : string) : outcome datetime :=
  let d := re_split_non_digit validity in
  match int_each d with
  | Raise e => Raise e
  | Return numbers => py_datetime (take 6 numbers)
  end.

(** The order of naive datetimes: field by field. *)
Fixpoint lexicographic_ltb (a b : list Z) : bool :=
  match a, b with
  | x :: a', y :: b' => (x <? y)%Z || ((x =? y)%Z && lexicographic_ltb a' b')
  | _, _ => false
  end.

Definition datetime_fields (t : datetime) : list Z :=
  [year t; month t; day t; hour t; minute t; second t; microsecond t].

Definition datetime_ltb (a b : datetime) : bool :=
  lexicographic_ltb (datetime_fields a) (datetime_fields b).

(** The columns of a [ModuleConfiguration] row that the resolver reads. *)
Record ModuleConfiguration := {
  is_disabled_until : option datetime;
  is_exposed : bool;
  layer : string
}.

(** A [Q] object, by the rows it holds of. *)
Definition Q := ModuleConfiguration -> bool.

Definition Q_is_disabled_until_None : Q := fun r =>
  match is_disabled_until r with None => true | Some _ => false end.

(** [Q(is_disabled_until__lt=validity)]: a row without a date never matches. *)
Definition Q_is_disabled_until_lt (validity : datetime) : Q := fun r =>
  match is_disabled_until r with
  | None => false
  | Some until => datetime_ltb until validity
  end.

Definition Q_is_exposed (value : bool) : Q := fun r => Bool.eqb (is_exposed r) value.

Definition Q_layer (value : string) : Q := fun r => String.eqb (layer r) value.

Definition Q_or (a b : Q) : Q := fun r => a r || b r.

(** [objects.filter] applied to the unpacked [crits]: the rows all of them
    hold of, in the order of the table. *)
Definition objects_filter (table : list ModuleConfiguration) (crits : list Q)
    : list ModuleConfiguration :=
  List.filter (fun r => forallb (fun q => q r) crits) table.

(** [Query.resolve_module_configurations], with [now] for
    [py_datetime.now()], [table] for the rows of [ModuleConfiguration], and
    the two optional arguments [validity] and [layer]. *)
Definition resolve_module_configurations (now : datetime)
    (table : list ModuleConfiguration) (validity : option string)
    (layer : option string) : outcome (list ModuleConfiguration) :=
  match
    match validity with
    | None => Return now
    | Some validity => validity_of_text validity
    end
  with
  | Raise e => Raise e
  | Return validity =>
      let crits :=
        [Q_or Q_is_disabled_until_None (Q_is_disabled_until_lt validity);
         Q_is_exposed true] in
      let crits :=
        match layer with
        | Some layer => crits ++ [Q_layer layer]
        | None => crits
        end in
      Return (objects_filter table crits)
  end.

End Configurations.
Export Configurations.

(** ** Vocabulary of the further properties *)

(** The objects inside a value that no encoder of the pipeline knows, by
    their type names, in the order [json.dumps] meets them. *)
Fixpoint foreign_objects (v : pyval) : list string :=
  match v with
  | PObject type_name => [type_name]
  | PList l => flat_map foreign_objects l
  | PDict d => flat_map (fun kv => foreign_objects (snd kv)) d
  | _ => []
  end.

(** The same process in the other execution mode. *)
Definition with_mode (async : bool) (env : environment) : environment :=
  {| async_mutations := async;
     signal_mutation := signal_mutation env;
     signal_mutation_module := signal_mutation_module env;
     installed_schemas := installed_schemas env;
     create_fault := create_fault env;
     delay_fault := delay_fault env;
     activate_fault := activate_fault env |}.

(** The columns of a record that are written when it is created. *)
Definition submitted_columns (r : MutationLog) : json * option User * pyval * pyval :=
  (json_content r, user r, client_mutation_id r, client_mutation_label r).

(** The characters of a text that are not digits, counted. *)
Fixpoint count_non_digit (s : string) : nat :=
  match s with
  | EmptyString => 0
  | String c rest => ((if is_digit c then 0 else 1) + count_non_digit rest)%nat
  end.

(** A datetime the constructor accepts. *)
Definition valid_datetime (t : datetime) : bool :=
  between 1 (year t) 9999 && between 1 (month t) 12 &&
  between 1 (day t) (days_in_month (year t) (month t)) &&
  between 0 (hour t) 23 && between 0 (minute t) 59 && between 0 (second t) 59 &&
  between 0 (microsecond t) 999999.

(** The datetime at the start of its second, and at the start of its day. *)
Definition whole_second (t : datetime) : datetime :=
  {| year := year t; month := month t; day := day t; hour := hour t;
     minute := minute t; second := second t; microsecond := 0 |}.

Definition midnight (t : datetime) : datetime :=
  {| year := year t; month := month t; day := day t; hour := 0;
     minute := 0; second := 0; microsecond := 0 |}.

(** The last decimal digit of [n], as a character. *)
Definition digit_char (n : Z) : ascii := ascii_of_N (Z.to_N (48 + n mod 10)).

Definition two_digits (n : Z) : string :=
  String (digit_char (n / 10)) (String (digit_char n) EmptyString).

Definition four_digits (n : Z) : string :=
  String (digit_char (n / 1000)) (String (digit_char (n / 100)) (two_digits n)).

Definition six_digits (n : Z) : string :=
  String (digit_char (n / 100000)) (String (digit_char (n / 10000)) (four_digits n)).

(** [t.date().isoformat()] *)
Definition isoformat_date (t : datetime) : string :=
  four_digits (year t) +:+ "-" +:+ two_digits (month t) +:+ "-" +:+ two_digits (day t).

(** [t.isoformat()]: the fraction is written when there are microseconds. *)
Definition isoformat (t : datetime) : string :=
  isoformat_date t +:+ "T" +:+ two_digits (hour t) +:+ ":" +:+ two_digits (minute t)
  +:+ ":" +:+ two_digits (second t)
  +:+ (if (microsecond t =? 0)%Z then "" else "." +:+ six_digits (microsecond t)).

(** * Properties *)

Example to_snake_case_request_date_time :
  to_snake_case "requestDateTime" = "request_date_time".
Proof. reflexivity. Qed.

Example to_snake_case_descending :
  to_snake_case "-clientMutationId" = "-client_mutation_id".
Proof. reflexivity. Qed.

Example to_snake_case_acronym :
  to_snake_case "HTTPResponseCode2XX" = "http_response_code2_xx".
Proof. reflexivity. Qed.

Example to_snake_case_runs :
  to_snake_case "aaBBccDD" = "aa_b_bcc_dd" /\ to_snake_case "XYz1Ab" = "x_yz1_ab".
Proof. split; reflexivity. Qed.

(** ** The read path *)

Lemma filter_user_owned (qs : QuerySet) (requester : principal) (r : MutationLog) :
  In r (rows (filter_user qs requester)) ->
  In r (rows qs) /\
  exists n, principal_id requester = Some n /\ user_id <$> user r = Some n.
Proof.
  unfold filter_user; simpl. rewrite filter_In. intros [Hin Hkeep].
  split; [exact Hin|].
  destruct (user r) as [owner|]; [|discriminate].
  destruct (principal_id requester) as [n|]; [|discriminate].
  exists n. split; [reflexivity|]. simpl. f_equal. now apply Z.eqb_eq.
Qed.

(** C10. The mutation-log query gives an anonymous principal no row, gives an
    authenticated principal who is not a superuser exactly the rows whose
    submitter is that principal (so every row it returns has
    [user = requester]), and gives a superuser the queryset as it is. *)
Theorem get_queryset_visibility (queryset : QuerySet) (requester : principal) :
  match requester with
  | AnonymousUser => rows (get_queryset queryset requester) = []
  | Authenticated u =>
      if is_superuser_flag u
      then get_queryset queryset requester = queryset
      else
        get_queryset queryset requester = filter_user queryset requester /\
        (forall r, In r (rows (get_queryset queryset requester)) ->
                   In r (rows queryset) /\ user_id <$> user r = Some (user_id u)) /\
        (forall r, In r (rows queryset) -> user_id <$> user r = Some (user_id u) ->
                   In r (rows (get_queryset queryset requester)))
  end.
Proof.
  destruct requester as [|u]; [reflexivity|].
  unfold get_queryset; simpl.
  destruct (is_superuser_flag u); [reflexivity|].
  split; [reflexivity|]. split.
  - intros r Hr. apply filter_user_owned in Hr as (Hin & n & Hn & Hu).
    simpl in Hn. injection Hn as <-. now split.
  - intros r Hin Hu. unfold filter_user; simpl. apply filter_In. split; [exact Hin|].
    destruct (user r) as [owner|]; simpl in Hu; [|discriminate].
    injection Hu as Hu. now apply Z.eqb_eq.
Qed.

(** C9. For an ordering key list, every key equal to ["?"] becomes the raw
    SQL expression [NEWID()] and every other key becomes the field named by
    its snake-case form, in the order given, and these replace the ordering
    of the queryset; without an ordering (none given, or an empty list) the
    queryset is handed on as it is. *)
Theorem connection_resolver_ordering (qs : QuerySet) (key : string) (keys : list string) :
  connection_resolver qs None = Return qs /\
  connection_resolver qs (Some (OrderList [])) = Return qs /\
  connection_resolver qs (Some (OrderList (key :: keys))) =
    Return
      {| rows := rows qs;
         order_by_clause :=
           map (fun k => if String.eqb k "?" then RawSQL "NEWID()" []
                         else Field (to_snake_case k))
               (key :: keys) |}.
Proof.
  split; [reflexivity|]. split; [reflexivity|].
  unfold connection_resolver, order_by; simpl. do 2 f_equal.
  change (map snake_key (key :: keys) =
          map (fun k => if String.eqb k "?" then RawSQL "NEWID()" []
                        else Field (to_snake_case k)) (key :: keys)).
  apply map_ext. intros k. unfold snake_key, NEWID. now destruct (String.eqb k "?").
Qed.

Example connection_resolver_random_key :
  connection_resolver {| rows := []; order_by_clause := [Field "id"] |}
    (Some (OrderList ["requestDateTime"; "?"]))
  = Return {| rows := [];
              order_by_clause := [Field "request_date_time"; RawSQL "NEWID()" []] |}.
Proof. reflexivity. Qed.

(** ** Running the pipeline *)

Lemma add_events_nil w : add_events w [] = w.
Proof. destruct w; unfold add_events; simpl. now rewrite app_nil_r. Qed.

Lemma add_events_app w evs evs' :
  add_events (add_events w evs) evs' = add_events w (evs ++ evs').
Proof. unfold add_events; simpl. now rewrite app_assoc. Qed.

Lemma send_run receivers args w :
  send receivers args w =
  (responses receivers args, add_events w (map (notification args) (called receivers args))).
Proof.
  revert w. induction receivers as [|r rest IH]; intros w.
  - simpl. now rewrite add_events_nil.
  - simpl. unfold mbind, M_bind, emit, lift, notification; simpl.
    destruct (receive r args) as [response|e] eqn:Hr.
    + rewrite IH. fold (notification args).
      destruct (responses rest args); unfold add_events; simpl;
        now rewrite <- app_assoc.
    + reflexivity.
Qed.

Lemma responses_return_called receivers args results :
  responses receivers args = Return results -> called receivers args = receivers.
Proof.
  revert results. induction receivers as [|r rest IH]; intros results; simpl; [reflexivity|].
  destruct (receive r args); [|discriminate].
  destruct (responses rest args) eqn:Hrest; [|discriminate].
  intros _. f_equal. eapply IH. reflexivity.
Qed.

Lemma responses_raise_called receivers args e more :
  responses receivers args = Raise e ->
  called (receivers ++ more) args = called receivers args.
Proof.
  induction receivers as [|r rest IH]; simpl; [discriminate|].
  destruct (receive r args); [|reflexivity].
  destruct (responses rest args) eqn:Hrest; [discriminate|].
  intros [= ->]. f_equal. now apply IH.
Qed.

Lemma called_app_return receivers args results more :
  responses receivers args = Return results ->
  called (receivers ++ more) args = receivers ++ called more args.
Proof.
  revert results. induction receivers as [|r rest IH]; intros results; simpl; [reflexivity|].
  destruct (receive r args); [|discriminate].
  destruct (responses rest args) eqn:Hrest; [|discriminate].
  intros _. f_equal. eapply IH. reflexivity.
Qed.

Lemma validate_run env cls args w :
  validate env cls args w =
  (validation env cls args,
   add_events w (map (notification args) (called (subscribers env cls) args))).
Proof.
  unfold validate, validation, subscribers, mbind, M_bind, lift, mret, M_ret.
  rewrite send_run.
  destruct (responses (signal_mutation env) args) as [results|e] eqn:Hglobal.
  - destruct (signal_of_module _ _) as [module_signal|e] eqn:Hmodule.
    + rewrite send_run, add_events_app, <- map_app.
      rewrite (called_app_return _ _ _ _ Hglobal).
      rewrite (responses_return_called _ _ _ Hglobal).
      now destruct (responses module_signal args).
    + now rewrite app_nil_r, (responses_return_called _ _ _ Hglobal).
  - now rewrite (responses_raise_called _ _ _ _ Hglobal).
Qed.

Lemma mark_as_successful_run mutation_id r w :
  mutation_logs w !! mutation_id = Some r ->
  mark_as_successful mutation_id w =
  (Return tt, set_logs (<[mutation_id := marked None r]> (mutation_logs w)) w).
Proof. intros H. unfold mark_as_successful. now rewrite H. Qed.

Lemma mark_as_failed_run mutation_id detail r w :
  mutation_logs w !! mutation_id = Some r ->
  mark_as_failed mutation_id detail w =
  (Return tt, set_logs (<[mutation_id := marked (Some detail) r]> (mutation_logs w)) w).
Proof. intros H. unfold mark_as_failed. now rewrite H. Qed.

Lemma activate_user_language_frame env info_user w :
  let w' := snd (activate_user_language env info_user w) in
  mutation_logs w' = mutation_logs w /\ task_queue w' = task_queue w /\
  trace w' = trace w.
Proof.
  destruct info_user as [[|u]|]; simpl; auto.
  destruct (language u) as [[code|code]|]; simpl; auto;
    unfold translation_activate;
    repeat match goal with
           | |- context [if ?b then _ else _] => destruct b
           | |- context [match activate_fault ?e ?l with _ => _ end] =>
               destruct (activate_fault e l)
           end; simpl; auto.
Qed.

Lemma receive_mutation_returns env info_user data w mutation_log_id w0 :
  receive_mutation env info_user data w = (Return mutation_log_id, w0) ->
  exists content,
    dumps_openimis (PDict data) = Return content /\
    create_fault env = None /\
    mutation_log_id = length (mutation_logs w) /\
    mutation_logs w0 = mutation_logs w ++ [fresh_record content info_user data] /\
    task_queue w0 = task_queue w /\
    trace w0 = trace w.
Proof.
  unfold receive_mutation, mbind, M_bind, lift, MutationLog_create, mret, M_ret.
  destruct (dumps_openimis (PDict data)) as [content|e]; [|discriminate].
  destruct (create_fault env); [discriminate|].
  match goal with
  | |- context [activate_user_language env info_user ?w1] =>
      pose proof (activate_user_language_frame env info_user w1) as (Hl & Hq & Ht);
      destruct (activate_user_language env info_user w1) as [[[]|e] w2]
  end; [|discriminate].
  intros [= <- <-]. exists content. simpl in *. now rewrite Hl, Hq, Ht.
Qed.

Lemma receive_mutation_raises env info_user data w e w0 :
  receive_mutation env info_user data w = (Raise e, w0) ->
  task_queue w0 = task_queue w /\ trace w0 = trace w /\
  (mutation_logs w0 = mutation_logs w \/
   exists content,
     mutation_logs w0 = mutation_logs w ++ [fresh_record content info_user data]).
Proof.
  unfold receive_mutation, mbind, M_bind, lift, MutationLog_create, mret, M_ret.
  destruct (dumps_openimis (PDict data)) as [content|e'].
  2:{ intros [= <- <-]. auto. }
  destruct (create_fault env).
  { intros [= <- <-]. auto. }
  match goal with
  | |- context [activate_user_language env info_user ?w1] =>
      pose proof (activate_user_language_frame env info_user w1) as (Hl & Hq & Ht);
      destruct (activate_user_language env info_user w1) as [[[]|e'] w2]
  end; [discriminate|].
  intros [= <- <-]. simpl in *. rewrite Hl, Hq, Ht. eauto.
Qed.

Lemma try_process_run env cls info_user data mutation_log_id r w :
  mutation_logs w !! mutation_log_id = Some r ->
  let args := signal_args_of cls mutation_log_id info_user data in
  try_except (process env cls info_user data mutation_log_id)
             (fun exc => mark_as_failed mutation_log_id (Fault exc)) w =
  (Return tt,
   settled w mutation_log_id (marked (verdict env cls info_user data args) r)
     (submission_messages env cls mutation_log_id args)
     (submission_events env cls info_user data args)).
Proof.
  intros Hr args. destruct w as [logs queue lang tr]. simpl in Hr.
  unfold try_except, process, mbind, M_bind. rewrite validate_run. fold args.
  unfold verdict, conclusion, submission_messages, submission_events, accepted,
    execution, serialized, settled, add_events.
  destruct (validation env cls args) as [errors|e]; simpl.
  2:{ unfold mark_as_failed; simpl. rewrite Hr. unfold set_logs; simpl.
      now rewrite !app_nil_r. }
  destruct errors as [|err errors]; simpl.
  - destruct (async_mutations env); simpl.
    + unfold delay, mbind, M_bind, mret, M_ret; simpl.
      destruct (delay_fault env) as [e|]; simpl.
      * unfold mark_as_failed; simpl. rewrite Hr. unfold set_logs; simpl.
        now rewrite !app_nil_r.
      * unfold mark_as_successful; simpl. rewrite Hr. unfold set_logs; simpl.
        now rewrite !app_nil_r.
    + unfold call_async_mutate, emit, lift, mbind, M_bind; simpl.
      destruct (async_mutate cls info_user data) as [error_messages|e]; simpl.
      * destruct (truthy error_messages); simpl.
        -- destruct (dumps error_messages) as [doc|e]; simpl;
             unfold mark_as_failed; simpl; rewrite Hr; unfold set_logs; simpl;
             now rewrite <- !app_assoc, ?app_nil_r.
        -- unfold mark_as_successful; simpl. rewrite Hr. unfold set_logs; simpl.
           now rewrite <- !app_assoc, ?app_nil_r.
      * unfold mark_as_failed; simpl. rewrite Hr. unfold set_logs; simpl.
        now rewrite <- !app_assoc, ?app_nil_r.
  - unfold lift. destruct (dumps (PList (err :: errors))) as [doc|e]; simpl;
      unfold mark_as_failed; simpl; rewrite Hr; unfold set_logs; simpl;
      now rewrite !app_nil_r.
Qed.

(** A submission whose record was created and whose language step passed:
    the call returns the record id, and the record, the queue and the trace
    end as [verdict], [submission_messages] and [submission_events] say. *)
Lemma mutate_run env cls info_user data w mutation_log_id w0 content :
  receive_mutation env info_user data w = (Return mutation_log_id, w0) ->
  dumps_openimis (PDict data) = Return content ->
  let args := signal_args_of cls mutation_log_id info_user data in
  mutate_and_get_payload env cls info_user data w =
  (Return mutation_log_id,
   settled w0 mutation_log_id
     (marked (verdict env cls info_user data args) (fresh_record content info_user data))
     (submission_messages env cls mutation_log_id args)
     (submission_events env cls info_user data args)).
Proof.
  intros Hreceive Hcontent args.
  destruct (receive_mutation_returns _ _ _ _ _ _ Hreceive)
    as (content' & Hc' & _ & Hid & Hlogs & _ & _).
  rewrite Hcontent in Hc'. injection Hc' as <-.
  assert (Hr : mutation_logs w0 !! mutation_log_id = Some (fresh_record content info_user data)).
  { rewrite Hlogs, Hid. now rewrite list_lookup_middle. }
  unfold mutate_and_get_payload. unfold mbind at 1, M_bind at 1. rewrite Hreceive.
  unfold mbind, M_bind.
  rewrite (try_process_run env cls info_user data mutation_log_id _ w0 Hr).
  reflexivity.
Qed.

Lemma mutate_raises env cls info_user data w e w0 :
  receive_mutation env info_user data w = (Raise e, w0) ->
  mutate_and_get_payload env cls info_user data w = (Raise e, w0).
Proof.
  intros H. unfold mutate_and_get_payload. unfold mbind at 1, M_bind at 1. now rewrite H.
Qed.

(** *** Running the task *)

Lemma task_run env mutation_id module class_name mutation w :
  mutation_logs w !! mutation_id = Some mutation ->
  openimis_mutation_async env mutation_id module class_name w =
  (match task_result env mutation module class_name with
   | Raise exc => Raise exc
   | Return _ => Return "OK"
   end,
   {| mutation_logs :=
        <[mutation_id := marked (task_verdict env mutation module class_name) mutation]>
          (mutation_logs w);
      task_queue := task_queue w;
      active_language :=
        task_active_language env mutation module class_name (active_language w);
      trace :=
        trace w ++ task_call env mutation module class_name ++
        match task_result env mutation module class_name with
        | Raise _ => [Warned (warning_text mutation_id)]
        | Return _ => []
        end |}).
Proof.
  intros Hm. destruct w as [logs queue lang tr]. simpl in Hm.
  unfold openimis_mutation_async, MutationLog_get; simpl. rewrite Hm.
  unfold try_except, execute, call_async_mutate, translation_activate,
    mbind, M_bind, lift, mret, M_ret, emit, raise.
  unfold task_verdict, task_result, task_call, task_active_language, task_prepared,
    task_language.
  destruct (resolve env module class_name) as [mutation_class|e]; simpl.
  2:{ unfold mark_as_failed; simpl. rewrite Hm. reflexivity. }
  destruct (user mutation) as [u|]; simpl;
    [destruct (language_truthy (language u)) eqn:Htruthy; simpl;
     [destruct (language u) as [lang0|]; [|discriminate];
      destruct (activate_fault env lang0) as [e|]; simpl|]|];
    try (unfold mark_as_failed; simpl; rewrite Hm; reflexivity);
    (destruct (kwargs (loads (json_content mutation))) as [data|e]; simpl;
     [destruct (async_mutate mutation_class _ data) as [result|e]; simpl;
      [destruct (truthy result); simpl|]|]);
    unfold mark_as_failed, mark_as_successful; simpl; rewrite Hm; unfold set_logs; simpl;
    rewrite ?app_nil_r, <- ?app_assoc; reflexivity.
Qed.

Lemma task_absent env mutation_id module class_name w :
  mutation_logs w !! mutation_id = None ->
  openimis_mutation_async env mutation_id module class_name w =
  (Raise DoesNotExist, add_events w [Warned (warning_text mutation_id)]).
Proof.
  intros Hm. unfold openimis_mutation_async, MutationLog_get. now rewrite Hm.
Qed.

(** ** The task executor *)

(** C5. A run of the task executor on an id that has no record raises the
    lookup fault after logging a warning, and marks nothing.  On a record it
    could load: a fault thrown while the handler is resolved, the language is
    activated, the payload is read back or the handler runs is re-raised
    after the record was marked [FAILED] with the text of that fault and a
    warning was logged; a handler that returns an error detail (a value that
    is not empty) leaves the record [FAILED] with that value; a handler that
    returns [None] (or an empty value) leaves the record [SUCCESS]. *)
Theorem task_executor_outcomes (env : environment) (mutation_id : nat)
    (module class_name : string) (w : world) :
  let run := openimis_mutation_async env mutation_id module class_name w in
  match mutation_logs w !! mutation_id with
  | None =>
      fst run = Raise DoesNotExist /\
      mutation_logs (snd run) = mutation_logs w /\
      trace (snd run) = trace w ++ [Warned (warning_text mutation_id)]
  | Some mutation =>
      match task_result env mutation module class_name with
      | Raise exc =>
          fst run = Raise exc /\
          mutation_logs (snd run) =
            <[mutation_id := marked (Some (Text (exn_str exc))) mutation]> (mutation_logs w) /\
          last (trace (snd run)) = Some (Warned (warning_text mutation_id))
      | Return result =>
          fst run = Return "OK" /\
          mutation_logs (snd run) =
            <[mutation_id :=
                marked (if truthy result then Some (Structured result) else None) mutation]>
              (mutation_logs w)
      end
  end.
Proof.
  intros run. subst run.
  destruct (mutation_logs w !! mutation_id) as [mutation|] eqn:Hm.
  - rewrite (task_run _ _ _ _ _ _ Hm). unfold task_verdict.
    destruct (task_result env mutation module class_name) as [result|exc]; simpl.
    + now split.
    + split; [reflexivity|]. split; [reflexivity|].
      now rewrite app_assoc, last_snoc.
  - rewrite (task_absent _ _ _ _ _ Hm). simpl. auto.
Qed.

(** ** Concrete submissions *)

(** Scenario 1 of the specification: no subscriber, a handler that returns
    [None], synchronous mode. *)
Example scenario_sync_success :
  let run := mutate_and_get_payload (process_with false [] []) ChargeCard
               (Some (Authenticated alice)) payload empty_world in
  fst run = Return 0%nat /\
  status <$> mutation_logs (snd run) !! 0%nat = Some SUCCESS /\
  trace (snd run) =
    [Executed "billing" "ChargeCard" (Some (Authenticated alice)) payload].
Proof. repeat split. Qed.

(** Synchronous mode, a handler that returns an error detail: the record is
    [FAILED] with the serialized detail. *)
Example scenario_sync_refusal :
  let run := mutate_and_get_payload (process_with false [] []) RefusedCard
               (Some (Authenticated alice)) payload empty_world in
  fst run = Return 0%nat /\
  status <$> mutation_logs (snd run) !! 0%nat = Some FAILED /\
  error <$> mutation_logs (snd run) !! 0%nat =
    Some (Some (Text (doc_text (JList [JStr "card refused"])))).
Proof. repeat split. Qed.

(** Scenario 4 of the specification, on the worker's side: the module of the
    task cannot be imported; the record ends [FAILED] with the text of the
    import error, which the task raises again. *)
Example scenario_unknown_module :
  let submitted := snd (mutate_and_get_payload (process_with true [] []) ChargeCard
                          (Some (Authenticated alice)) payload empty_world) in
  let run := openimis_mutation_async (process_with true [] []) 0 "unknownmodule" "X"
               submitted in
  fst run = Raise (Exn "ModuleNotFoundError" "No module named 'unknownmodule'") /\
  error <$> mutation_logs (snd run) !! 0%nat =
    Some (Some (Text "No module named 'unknownmodule'")).
Proof. repeat split. Qed.

(** Scenario 3 of the specification, on the worker's side: the handler raises
    "network timeout"; the record ends [FAILED] with that text and the task
    raises the same exception. *)
Example scenario_worker_fault :
  let submitted := snd (mutate_and_get_payload (process_with true [] []) SlowCard
                          (Some (Authenticated alice)) payload empty_world) in
  let run := openimis_mutation_async (process_with true [] []) 0 "billing" "SlowCard"
               submitted in
  fst run = Raise network_timeout /\
  status <$> mutation_logs (snd run) !! 0%nat = Some FAILED /\
  error <$> mutation_logs (snd run) !! 0%nat = Some (Some (Text "network timeout")).
Proof. repeat split. Qed.

(** ** The coordinator *)

(** C1, general form of what the code does: in asynchronous mode a
    submission that passes validation is marked [SUCCESS] by the coordinator
    as soon as the task is queued, before any handler has run. *)
Lemma async_submission_marked_at_once env cls info_user data w mutation_log_id w0 :
  receive_mutation env info_user data w = (Return mutation_log_id, w0) ->
  async_mutations env = true ->
  delay_fault env = None ->
  accepted env cls (signal_args_of cls mutation_log_id info_user data) = true ->
  let run := mutate_and_get_payload env cls info_user data w in
  fst run = Return mutation_log_id /\
  status <$> mutation_logs (snd run) !! mutation_log_id = Some SUCCESS /\
  task_queue (snd run) =
    task_queue w ++ [{| task_mutation_id := mutation_log_id;
                        task_module := _mutation_module cls;
                        task_class_name := _mutation_class cls |}] /\
  forall ev, In ev (drop (length (trace w)) (trace (snd run))) ->
             exists r a o, ev = Notified r a o.
Proof.
  intros Hreceive Hasync Hdelay Haccepted run. subst run.
  destruct (receive_mutation_returns _ _ _ _ _ _ Hreceive)
    as (content & Hcontent & _ & Hid & Hlogs & Hqueue & Htrace).
  rewrite (mutate_run _ cls _ _ _ _ _ _ Hreceive Hcontent). simpl.
  unfold submission_messages, submission_events, verdict, conclusion, execution.
  rewrite Haccepted, Hasync, Hdelay. unfold accepted in Haccepted.
  destruct (validation env cls _) as [errors|]; [|discriminate].
  apply negb_true_iff in Haccepted. rewrite Haccepted. simpl.
  split; [reflexivity|]. split; [|split].
  - rewrite Hlogs, Hid, list_lookup_insert_eq; [reflexivity|].
    rewrite length_app; simpl; lia.
  - now rewrite Hqueue.
  - rewrite Htrace, app_nil_r, drop_app_length. intros ev Hev.
    apply in_map_iff in Hev as (r & <- & _). unfold notification. eauto.
Qed.

(** C1, at a concrete submission (asynchronous mode, no subscriber): when
    [mutate_and_get_payload] returns, the task is on the queue, no handler
    has been called, and the record is already [SUCCESS], not
    [PENDING_EXECUTION]. *)
Theorem async_submission_is_not_pending :
  let run := mutate_and_get_payload (process_with true [] []) SlowCard
               (Some (Authenticated alice)) payload empty_world in
  fst run = Return 0%nat /\
  task_queue (snd run) =
    [{| task_mutation_id := 0; task_module := "billing"; task_class_name := "SlowCard" |}] /\
  trace (snd run) = [] /\
  status <$> mutation_logs (snd run) !! 0%nat = Some SUCCESS /\
  status <$> mutation_logs (snd run) !! 0%nat <> Some PENDING_EXECUTION.
Proof. repeat split. discriminate. Qed.

(** C4, general form of what the code does: the submission of an anonymous
    principal creates the record and then raises [AttributeError] out of
    [mutate_and_get_payload]; the record stays [RECEIVED]. *)
Lemma anonymous_submission_propagates env cls data w content :
  dumps_openimis (PDict data) = Return content ->
  create_fault env = None ->
  mutate_and_get_payload env cls (Some AnonymousUser) data w =
  (Raise (Exn "AttributeError" "'AnonymousUser' object has no attribute 'language'"),
   set_logs (mutation_logs w ++ [fresh_record content (Some AnonymousUser) data]) w).
Proof.
  intros Hcontent Hcreate. apply mutate_raises.
  unfold receive_mutation, mbind, M_bind, lift, MutationLog_create.
  now rewrite Hcontent, Hcreate.
Qed.

(** C4, at a concrete submission by an anonymous principal: the record is
    created, then the fault raised while the language is looked up leaves
    [mutate_and_get_payload] uncaught: no handle is returned and the record
    is [RECEIVED], not [FAILED]. *)
Theorem anonymous_fault_is_not_absorbed :
  let run := mutate_and_get_payload (process_with false [] []) ChargeCard
               (Some AnonymousUser) payload empty_world in
  fst run =
    Raise (Exn "AttributeError" "'AnonymousUser' object has no attribute 'language'") /\
  length (mutation_logs (snd run)) = 1%nat /\
  status <$> mutation_logs (snd run) !! 0%nat = Some RECEIVED /\
  error <$> mutation_logs (snd run) !! 0%nat = Some None.
Proof. repeat split. Qed.

(** The part of C4 the code keeps.  A fault of the store propagates and
    nothing else happens; once the language step has passed the call returns
    the record id on every path, and a fault raised inside the [try] block
    ends as status [FAILED] with that fault as the detail. *)
Lemma persistence_fault_propagates env cls info_user data w e :
  create_fault env = Some e ->
  (exists e', mutate_and_get_payload env cls info_user data w = (Raise e', w)).
Proof.
  intros Hcreate. unfold mutate_and_get_payload, receive_mutation, mbind, M_bind, lift,
    MutationLog_create.
  destruct (dumps_openimis (PDict data)); [rewrite Hcreate|]; eauto.
Qed.

Lemma faults_inside_try_are_absorbed env cls info_user data w mutation_log_id w0 :
  receive_mutation env info_user data w = (Return mutation_log_id, w0) ->
  let run := mutate_and_get_payload env cls info_user data w in
  fst run = Return mutation_log_id /\
  exists m, mutation_logs (snd run) !! mutation_log_id = Some m /\
    forall e,
      conclusion env cls info_user data
        (signal_args_of cls mutation_log_id info_user data) = Raise e ->
      status m = FAILED /\ error m = Some (Fault e).
Proof.
  intros Hreceive run. subst run.
  destruct (receive_mutation_returns _ _ _ _ _ _ Hreceive)
    as (content & Hcontent & _ & Hid & Hlogs & _ & _).
  rewrite (mutate_run _ cls _ _ _ _ _ _ Hreceive Hcontent).
  cbn [fst snd settled mutation_logs].
  split; [reflexivity|]. eexists. split.
  - rewrite Hlogs, Hid. apply list_lookup_insert_eq. rewrite length_app; simpl; lia.
  - intros e He. rewrite Hid in He. unfold verdict. rewrite He. now split.
Qed.

(** ** Validation *)

Lemma called_subset receivers args r :
  In r (called receivers args) -> In r receivers.
Proof.
  induction receivers as [|r0 rest IH]; simpl; [tauto|].
  intros [->|H]; [now left|]. right.
  destruct (receive r0 args); [now apply IH|contradiction].
Qed.

Lemma responses_member receivers args results r errs :
  responses receivers args = Return results ->
  In r receivers -> receive r args = Return errs ->
  In (receiver_name r, errs) results.
Proof.
  revert results. induction receivers as [|r0 rest IH]; intros results; simpl; [tauto|].
  destruct (receive r0 args) as [response|] eqn:Hr0; [|discriminate].
  destruct (responses rest args) as [others|] eqn:Hrest; [|discriminate].
  intros [= <-] [->|Hin] Hr.
  - rewrite Hr in Hr0. injection Hr0 as <-. now left.
  - right. now apply IH.
Qed.

Lemma collect_errors_member results name errs :
  In (name, errs) results -> errs <> [] -> collect_errors results <> [].
Proof.
  unfold collect_errors. induction results as [|[n l] rest IH]; simpl; [tauto|].
  intros [[= -> ->]|Hin] Hne.
  - destruct errs; [contradiction|discriminate].
  - intros Hnil. apply app_eq_nil in Hnil as [_ Hnil]. now apply IH.
Qed.

Lemma validation_keeps_errors env cls args r errs errors :
  In r (called (subscribers env cls) args) ->
  receive r args = Return errs -> errs <> [] ->
  validation env cls args = Return errors ->
  truthy (PList errors) = true.
Proof.
  intros Hcalled Hr Hne. apply called_subset in Hcalled.
  unfold validation, subscribers in *.
  destruct (responses (signal_mutation env) args) as [results|] eqn:Hglobal; [|discriminate].
  destruct (signal_of_module _ _) as [module_signal|]; [|discriminate].
  destruct (responses module_signal args) as [more|] eqn:Hmodule; [|discriminate].
  intros [= <-].
  assert (In (receiver_name r, errs) (results ++ more)) as Hin.
  { apply in_or_app. apply in_app_or in Hcalled as [H|H]; [left|right];
      eauto using responses_member. }
  pose proof (collect_errors_member _ _ _ Hin Hne) as Hcollected.
  simpl. now destruct (collect_errors (results ++ more)).
Qed.

(** C3, as the code has it.  When some subscriber, global or of the
    module, has returned a non-empty error list during the fan-out of a
    submission, the call returns the record id, the record is [FAILED],
    nothing is put on the queue and [async_mutate] is not called.  The detail
    is the serialized list of all errors when the fan-out came to its end and
    the list could be serialized; it is the fault when a later subscriber
    raised, when the module has no signal, or when serializing failed. *)
Theorem validation_errors_fail_the_record (env : environment) (cls : MutationClass)
    (info_user : option principal) (data : pydict) (w : world)
    (receiver : string) (errs : list pyval) :
  let run := mutate_and_get_payload env cls info_user data w in
  let mutation_log_id := length (mutation_logs w) in
  let args := signal_args_of cls mutation_log_id info_user data in
  In (Notified receiver args (Return errs)) (new_events w (snd run)) ->
  errs <> [] ->
  fst run = Return mutation_log_id /\
  (exists m,
     mutation_logs (snd run) !! mutation_log_id = Some m /\
     status m = FAILED /\
     match validation env cls args with
     | Return errors =>
         match dumps (PList errors) with
         | Return doc => error m = Some (Text (doc_text doc))
         | Raise e => error m = Some (Fault e)
         end
     | Raise e => error m = Some (Fault e)
     end) /\
  task_queue (snd run) = task_queue w /\
  Forall (fun ev => is_execution ev = false) (new_events w (snd run)).
Proof.
  intros run mutation_log_id args Hnotified Hne. subst run. unfold new_events in *.
  destruct (receive_mutation env info_user data w) as [[id|e] w0] eqn:Hreceive.
  2:{ rewrite (mutate_raises _ cls _ _ _ _ _ Hreceive) in Hnotified. simpl in Hnotified.
      destruct (receive_mutation_raises _ _ _ _ _ _ Hreceive) as (_ & Htrace & _).
      rewrite Htrace, drop_all in Hnotified. contradiction. }
  destruct (receive_mutation_returns _ _ _ _ _ _ Hreceive)
    as (content & Hcontent & _ & Hid & Hlogs & Hqueue & Htrace).
  subst id. fold mutation_log_id in Hreceive.
  rewrite (mutate_run _ cls _ _ _ _ _ _ Hreceive Hcontent) in *.
  cbn [fst snd settled mutation_logs task_queue trace] in *. fold args in Hnotified |- *.
  rewrite Htrace, drop_app_length in Hnotified |- *.
  assert (exists r, In r (called (subscribers env cls) args) /\
                    receive r args = Return errs) as (r & Hcalled & Hr).
  { unfold submission_events in Hnotified. apply in_app_or in Hnotified as [H|H].
    - apply in_map_iff in H as (r & Hev & Hin). unfold notification in Hev.
      injection Hev as _ Hev. eauto.
    - destruct (_ && _) in H; simpl in H; [destruct H as [H|[]]; discriminate|contradiction]. }
  assert (Hrejected : accepted env cls args = false).
  { unfold accepted. destruct (validation env cls args) as [errors|] eqn:Hv; [|reflexivity].
    now rewrite (validation_keeps_errors _ _ _ _ _ _ Hcalled Hr Hne Hv). }
  split; [reflexivity|]. split; [|split].
  - eexists. split.
    { rewrite Hlogs. apply list_lookup_insert_eq.
      subst mutation_log_id. rewrite length_app; simpl; lia. }
    unfold verdict, conclusion, serialized.
    destruct (validation env cls args) as [errors|e] eqn:Hv; [|now split].
    rewrite (validation_keeps_errors _ _ _ _ _ _ Hcalled Hr Hne Hv).
    destruct (dumps (PList errors)); now split.
  - unfold submission_messages. rewrite Hrejected. simpl. now rewrite app_nil_r, Hqueue.
  - unfold submission_events. rewrite Hrejected. simpl. rewrite app_nil_r.
    apply List.Forall_forall. intros ev Hev. apply in_map_iff in Hev as (r' & <- & _).
    reflexivity.
Qed.

(** C3, the scenario of the specification: a global subscriber returns
    "insufficient funds"; the record is [FAILED] with the serialized list and
    the handler is not called. *)
Lemma validation_errors_fail_the_record_witness :
  let env := process_with false [funds_check] [audit_log] in
  let run := mutate_and_get_payload env ChargeCard (Some (Authenticated alice))
               payload empty_world in
  let args := signal_args_of ChargeCard 0 (Some (Authenticated alice)) payload in
  In (Notified "funds_check" args (Return [PStr "insufficient funds"]))
     (new_events empty_world (snd run)) /\
  [PStr "insufficient funds"] <> [] /\
  (fst run = Return 0%nat /\
   (exists m,
      mutation_logs (snd run) !! 0%nat = Some m /\
      status m = FAILED /\
      match validation env ChargeCard args with
      | Return errors =>
          match dumps (PList errors) with
          | Return doc => error m = Some (Text (doc_text doc))
          | Raise e => error m = Some (Fault e)
          end
      | Raise e => error m = Some (Fault e)
      end) /\
   task_queue (snd run) = task_queue empty_world /\
   Forall (fun ev => is_execution ev = false) (new_events empty_world (snd run))).
Proof.
  split; [left; reflexivity|]. split; [discriminate|].
  apply (validation_errors_fail_the_record
           (process_with false [funds_check] [audit_log]) ChargeCard
           (Some (Authenticated alice)) payload empty_world "funds_check"
           [PStr "insufficient funds"]).
  - left; reflexivity.
  - discriminate.
Defined.

(** C3 as stated fails when the fan-out does not come to its end: a global
    subscriber has returned "insufficient funds", then a subscriber of the
    module raises; the record is [FAILED] with the fault as its detail, not
    with the serialized errors. *)
Lemma validation_errors_replaced_by_fault :
  let env := process_with false [funds_check] [broken_check] in
  let run := mutate_and_get_payload env ChargeCard (Some (Authenticated alice))
               payload empty_world in
  let args := signal_args_of ChargeCard 0 (Some (Authenticated alice)) payload in
  In (Notified "funds_check" args (Return [PStr "insufficient funds"]))
     (trace (snd run)) /\
  status <$> mutation_logs (snd run) !! 0%nat = Some FAILED /\
  error <$> mutation_logs (snd run) !! 0%nat =
    Some (Some (Fault (Exn "RuntimeError" "rule engine down"))) /\
  error <$> mutation_logs (snd run) !! 0%nat <>
    Some (Some (Text (doc_text (JList [JStr "insufficient funds"])))).
Proof.
  split; [left; reflexivity|]. split; [reflexivity|]. split; [reflexivity|].
  discriminate.
Qed.

Lemma called_prefix receivers args :
  exists rest, receivers = called receivers args ++ rest.
Proof.
  induction receivers as [|r rest [rest' IH]]; simpl; [now exists []|].
  destruct (receive r args).
  - exists rest'. now rewrite <- IH.
  - now exists rest.
Qed.

Lemma called_all_or_raise receivers args :
  called receivers args = receivers \/
  exists r e, last (called receivers args) = Some r /\ receive r args = Raise e.
Proof.
  induction receivers as [|r rest IH]; simpl; [now left|].
  destruct (receive r args) as [errs|e] eqn:Hr.
  - destruct IH as [->|(r' & e & Hlast & Hr')]; [now left|].
    right. exists r', e. split; [|exact Hr'].
    destruct (called rest args); [discriminate|exact Hlast].
  - right. now exists r, e.
Qed.

Lemma responses_all_return receivers args :
  Forall (returns args) receivers ->
  responses receivers args =
  Return (map (fun r => (receiver_name r, answer args r)) receivers).
Proof.
  induction 1 as [|r rest [errs Hr] _ IH]; simpl; [reflexivity|].
  unfold answer at 1. now rewrite Hr, IH.
Qed.

Lemma notifications_only args receivers :
  filter (fun ev => is_notification ev = true) (map (notification args) receivers) =
  map (notification args) receivers.
Proof.
  induction receivers as [|r rest IH]; [reflexivity|].
  simpl. rewrite filter_cons_True by reflexivity. now rewrite IH.
Qed.

(** C7, as the code has it.  For a submission that reaches the fan-out, the
    subscribers are called in the order they were connected, those of the
    global signal before those of the module's signal, and the fan-out stops
    only at a subscriber that raises (or, after the global signal, when the
    module has no signal): a subscriber that returns errors never stops it.
    When no subscriber raises, every subscriber of both signals is called,
    the error lists they return are gathered in that order, and a non-empty
    gathering that can be serialized is the detail of the [FAILED] record. *)
Theorem fan_out_calls_subscribers_in_order (env : environment) (cls : MutationClass)
    (info_user : option principal) (data : pydict) (w w0 : world)
    (mutation_log_id : nat) :
  receive_mutation env info_user data w = (Return mutation_log_id, w0) ->
  let run := mutate_and_get_payload env cls info_user data w in
  let args := signal_args_of cls mutation_log_id info_user data in
  let invoked := called (subscribers env cls) args in
  filter (fun ev => is_notification ev = true) (new_events w (snd run)) =
    map (notification args) invoked /\
  (exists rest, subscribers env cls = invoked ++ rest) /\
  (invoked = subscribers env cls \/
   exists r e, last invoked = Some r /\ receive r args = Raise e) /\
  (forall module_signal,
     signal_of_module (signal_mutation_module env) (_mutation_module cls) =
       Return module_signal ->
     Forall (returns args) (signal_mutation env ++ module_signal) ->
     let errors := concat (map (answer args) (signal_mutation env ++ module_signal)) in
     invoked = signal_mutation env ++ module_signal /\
     validation env cls args = Return errors /\
     forall doc, errors <> [] -> dumps (PList errors) = Return doc ->
       exists m, mutation_logs (snd run) !! mutation_log_id = Some m /\
                 status m = FAILED /\ error m = Some (Text (doc_text doc))).
Proof.
  intros Hreceive run args invoked. subst run invoked. unfold new_events.
  destruct (receive_mutation_returns _ _ _ _ _ _ Hreceive)
    as (content & Hcontent & _ & Hid & Hlogs & Hqueue & Htrace).
  rewrite (mutate_run _ cls _ _ _ _ _ _ Hreceive Hcontent).
  cbn [fst snd settled mutation_logs task_queue trace]. fold args.
  rewrite Htrace, drop_app_length.
  split; [|split; [apply called_prefix|split; [apply called_all_or_raise|]]].
  - unfold submission_events. rewrite filter_app, notifications_only.
    destruct (_ && _); simpl; [|now rewrite app_nil_r].
    rewrite filter_cons_False by discriminate. now rewrite filter_nil, app_nil_r.
  - intros module_signal Hmodule Hall.
    set (errors := concat (map (answer args) (signal_mutation env ++ module_signal))).
    assert (Hsubs : subscribers env cls = signal_mutation env ++ module_signal).
    { unfold subscribers. now rewrite Hmodule. }
    assert (Hvalidation : validation env cls args = Return errors).
    { unfold validation. apply Forall_app in Hall as [Hglobal Hmod].
      rewrite (responses_all_return _ _ Hglobal), Hmodule,
        (responses_all_return _ _ Hmod).
      unfold collect_errors, errors. rewrite <- map_app, map_map. reflexivity. }
    split; [|split; [exact Hvalidation|]].
    + rewrite Hsubs. destruct (called_all_or_raise (signal_mutation env ++ module_signal) args)
        as [H|(r & e & Hlast & Hr)]; [exact H|].
      exfalso. apply last_Some_elem_of in Hlast. apply list_elem_of_In in Hlast.
      apply called_subset in Hlast.
      rewrite List.Forall_forall in Hall. destruct (Hall r Hlast) as [errs Herrs].
      congruence.
    + intros doc Hne Hdoc. eexists. split.
      { rewrite Hlogs, Hid. apply list_lookup_insert_eq. rewrite length_app; simpl; lia. }
      unfold verdict, conclusion, serialized. rewrite Hvalidation.
      assert (truthy (PList errors) = true) as -> by (now destruct errors).
      rewrite Hdoc. now split.
Qed.

(** C7 on a concrete fan-out: two global subscribers and one of the module,
    two of which return errors; all three are called, in order, and the
    detail lists both errors. *)
Lemma fan_out_calls_subscribers_in_order_witness :
  let env := process_with false [funds_check; audit_log] [limit_check] in
  let w0 := set_logs [fresh_record (JDict [("amount", JInt 100)])
                        (Some (Authenticated alice)) payload]
              {| mutation_logs := []; task_queue := []; active_language := Some "en";
                 trace := [] |} in
  receive_mutation env (Some (Authenticated alice)) payload empty_world
    = (Return 0%nat, w0) /\
  let run := mutate_and_get_payload env ChargeCard (Some (Authenticated alice))
               payload empty_world in
  let args := signal_args_of ChargeCard 0 (Some (Authenticated alice)) payload in
  filter (fun ev => is_notification ev = true) (new_events empty_world (snd run)) =
    map (notification args) [funds_check; audit_log; limit_check] /\
  error <$> mutation_logs (snd run) !! 0%nat =
    Some (Some (Text (doc_text (JList [JStr "insufficient funds"; JStr "limit exceeded"])))).
Proof.
  split; [reflexivity|].
  pose proof (fan_out_calls_subscribers_in_order
                (process_with false [funds_check; audit_log] [limit_check]) ChargeCard
                (Some (Authenticated alice)) payload empty_world _ 0%nat eq_refl)
    as (Hcalls & _ & _ & Hall).
  split; [exact Hcalls|].
  destruct (Hall [limit_check] eq_refl) as (_ & _ & Hdetail).
  { repeat constructor; eexists; reflexivity. }
  destruct (Hdetail (JList [JStr "insufficient funds"; JStr "limit exceeded"]))
    as (m & Hm & _ & Herror); [discriminate|reflexivity|].
  rewrite Hm. simpl. now rewrite Herror.
Defined.

(** C7 as stated fails when a subscriber raises: the second global
    subscriber raises, so the subscriber of the module is never called, and
    the detail of the record is the fault, not the errors returned so far. *)
Lemma fan_out_stops_at_a_raising_subscriber :
  let env := process_with false [funds_check; broken_check] [limit_check] in
  let run := mutate_and_get_payload env ChargeCard (Some (Authenticated alice))
               payload empty_world in
  let args := signal_args_of ChargeCard 0 (Some (Authenticated alice)) payload in
  subscribers env ChargeCard = [funds_check; broken_check; limit_check] /\
  trace (snd run) =
    [Notified "funds_check" args (Return [PStr "insufficient funds"]);
     Notified "broken_check" args (Raise (Exn "RuntimeError" "rule engine down"))] /\
  error <$> mutation_logs (snd run) !! 0%nat =
    Some (Some (Fault (Exn "RuntimeError" "rule engine down"))).
Proof. repeat split. Qed.

(** ** The stored payload *)

Lemma pyval_nested_ind (P : pyval -> Prop) :
  P PNone -> (forall b, P (PBool b)) -> (forall n, P (PInt n)) ->
  (forall f, P (PFloat f)) -> (forall s, P (PStr s)) ->
  (forall l, Forall P l -> P (PList l)) ->
  (forall d, Forall (fun kv => P (snd kv)) d -> P (PDict d)) ->
  (forall d, P (PDecimal d)) -> (forall u, P (PHttpRequest u)) ->
  (forall t, P (PObject t)) ->
  forall v, P v.
Proof.
  intros HNone HBool HInt HFloat HStr HList HDict HDecimal HRequest HObject.
  fix IH 1.
  intros [|b|n|f|s|l|d|d|u|t];
    [exact HNone|apply HBool|apply HInt|apply HFloat|apply HStr| | |
     apply HDecimal|apply HRequest|apply HObject].
  - apply HList. induction l as [|x l IHl]; constructor; [apply IH|exact IHl].
  - apply HDict. induction d as [|[k x] d IHd]; constructor; [apply IH|exact IHd].
Qed.

Lemma dict_set_fresh (d : pydict) k v :
  existsb (String.eqb k) (map fst d) = false -> dict_set d k v = d ++ [(k, v)].
Proof.
  induction d as [|[k' v'] d IH]; simpl; [reflexivity|].
  destruct (String.eqb k k'); simpl; [discriminate|].
  intros H. now rewrite IH.
Qed.

Lemma existsb_app_false {A} (f : A -> bool) l l' :
  existsb f (l ++ l') = false <-> existsb f l = false /\ existsb f l' = false.
Proof. rewrite existsb_app. apply orb_false_iff. Qed.

(** Storing the members of an object one after the other rebuilds a dict
    whose keys are distinct. *)
Lemma members_rebuilt (members : list (string * json)) (acc : pydict) :
  distinct (map fst members) = true ->
  (forall k, In k (map fst members) -> existsb (String.eqb k) (map fst acc) = false) ->
  fold_left (fun acc kv => dict_set acc (fst kv) (loads (snd kv))) members acc =
  acc ++ map (fun kv => (fst kv, loads (snd kv))) members.
Proof.
  revert acc. induction members as [|[k j] members IH]; intros acc; simpl.
  - intros _ _. now rewrite app_nil_r.
  - intros Hdistinct Hfresh. apply andb_true_iff in Hdistinct as [Hk Hrest].
    apply negb_true_iff in Hk.
    rewrite dict_set_fresh by (apply Hfresh; now left).
    rewrite IH; [now rewrite <- app_assoc|exact Hrest|].
    intros k' Hk'. rewrite map_app. apply existsb_app_false. split.
    + apply Hfresh. now right.
    + simpl. rewrite orb_false_r. apply not_true_iff_false. intros Heq.
      apply String.eqb_eq in Heq. subst k'.
      apply not_true_iff_false in Hk. apply Hk. apply existsb_exists.
      exists k. split; [exact Hk'|apply String.eqb_refl].
Qed.

(** Reading back what was written gives the value again, for every native
    value and whatever the [default] hook is. *)
Lemma native_round_trip default v :
  native v = true ->
  exists doc, dumps_with default v = Return doc /\ loads doc = v.
Proof.
  induction v as [|b|n|f|s|l IHl|d IHd|d|u|t] using pyval_nested_ind;
    simpl; intros Hnative; try discriminate; try (eexists; split; reflexivity).
  - assert (exists docs,
      (fix items (l : list pyval) : outcome (list json) :=
         match l with
         | [] => Return []
         | x :: l' =>
             match dumps_with default x with
             | Raise e => Raise e
             | Return j =>
                 match items l' with
                 | Raise e => Raise e
                 | Return js => Return (j :: js)
                 end
             end
         end) l = Return docs /\ map loads docs = l) as (docs & -> & Hdocs).
    { induction IHl as [|x l Hx _ IH]; simpl in *; [now exists []|].
      apply andb_true_iff in Hnative as [Hnx Hnl].
      destruct (Hx Hnx) as (doc & -> & Hdoc). destruct (IH Hnl) as (docs & -> & Hdocs).
      exists (doc :: docs). simpl. now rewrite Hdoc, Hdocs. }
    eexists. split; [reflexivity|]. simpl. now rewrite Hdocs.
  - apply andb_true_iff in Hnative as [Hvalues Hkeys].
    assert (exists members,
      (fix members (d : list (string * pyval)) : outcome (list (string * json)) :=
         match d with
         | [] => Return []
         | (k, x) :: d' =>
             match dumps_with default x with
             | Raise e => Raise e
             | Return j =>
                 match members d' with
                 | Raise e => Raise e
                 | Return js => Return ((k, j) :: js)
                 end
             end
         end) d = Return members /\
      map fst members = map fst d /\
      map (fun kv => (fst kv, loads (snd kv))) members = d)
      as (members & -> & Hfst & Hmembers).
    { clear Hkeys. induction IHd as [|[k x] d Hx _ IH]; simpl in *; [now exists []|].
      apply andb_true_iff in Hvalues as [Hnx Hnd].
      destruct (Hx Hnx) as (doc & -> & Hdoc). destruct (IH Hnd) as (ms & -> & Hfst & Hms).
      exists ((k, doc) :: ms). simpl. now rewrite Hdoc, Hfst, Hms. }
    eexists. split; [reflexivity|]. simpl.
    rewrite members_rebuilt; [simpl; now rewrite Hmembers| now rewrite Hfst |].
    intros k _. reflexivity.
Qed.

Example temperature_round_trip :
  let data := PDict [("city", PStr "Kigali"); ("readings", PList [PInt 21; PNone])] in
  match dumps_openimis data with
  | Return doc => loads doc = data
  | Raise _ => False
  end.
Proof. reflexivity. Qed.

Lemma handler_arguments_notifications args receivers :
  handler_arguments (map (notification args) receivers) = [].
Proof. induction receivers; simpl; auto. Qed.

Lemma handler_arguments_app evs evs' :
  handler_arguments (evs ++ evs') = handler_arguments evs ++ handler_arguments evs'.
Proof.
  induction evs as [|[] evs IH]; simpl; auto. now rewrite IH.
Qed.

Lemma receive_mutation_not_anonymous env info_user data w mutation_log_id w0 :
  receive_mutation env info_user data w = (Return mutation_log_id, w0) ->
  Authenticated <$> submitter info_user = info_user.
Proof.
  destruct info_user as [[|u]|]; try reflexivity.
  unfold receive_mutation, mbind, M_bind, lift, MutationLog_create.
  destruct (dumps_openimis (PDict data)); [|discriminate].
  destruct (create_fault env); discriminate.
Qed.

(** The inline path: a submission that passes validation in synchronous mode
    calls the handler once, with the acting principal and the data as they
    were submitted. *)
Lemma inline_handler_arguments env cls info_user data w mutation_log_id w0 :
  receive_mutation env info_user data w = (Return mutation_log_id, w0) ->
  async_mutations env = false ->
  accepted env cls (signal_args_of cls mutation_log_id info_user data) = true ->
  handler_arguments
    (new_events w (snd (mutate_and_get_payload env cls info_user data w))) =
  [(info_user, data)].
Proof.
  intros Hreceive Hsync Haccepted. unfold new_events.
  destruct (receive_mutation_returns _ _ _ _ _ _ Hreceive)
    as (content & Hcontent & _ & _ & _ & _ & Htrace).
  rewrite (mutate_run _ cls _ _ _ _ _ _ Hreceive Hcontent).
  cbn [snd settled trace]. rewrite Htrace, drop_app_length.
  unfold submission_events. rewrite Haccepted, Hsync. simpl.
  now rewrite handler_arguments_app, handler_arguments_notifications.
Qed.

(** C6, as the code has it.  For an asynchronous submission that passes
    validation and is queued, the message on the queue holds the record id,
    the module and the class name, and the coordinator does not call the
    handler.  The record holds the payload as [OpenIMISJSONEncoder] wrote it;
    when the payload is made of native values, reading it back gives exactly
    the data that was submitted, and the task then calls the handler with the
    same principal and data as the inline path does. *)
Theorem queued_task_reads_the_payload_back (env : environment)
    (cls mutation_class : MutationClass) (info_user : option principal)
    (data : pydict) (w w0 : world) (mutation_log_id : nat) :
  receive_mutation env info_user data w = (Return mutation_log_id, w0) ->
  async_mutations env = true ->
  delay_fault env = None ->
  accepted env cls (signal_args_of cls mutation_log_id info_user data) = true ->
  resolve env (_mutation_module cls) (_mutation_class cls) = Return mutation_class ->
  (forall lang, activate_fault env lang = None) ->
  native (PDict data) = true ->
  let submitted := snd (mutate_and_get_payload env cls info_user data w) in
  let worker :=
    openimis_mutation_async env mutation_log_id (_mutation_module cls)
      (_mutation_class cls) submitted in
  task_queue submitted =
    task_queue w ++ [{| task_mutation_id := mutation_log_id;
                        task_module := _mutation_module cls;
                        task_class_name := _mutation_class cls |}] /\
  handler_arguments (new_events w submitted) = [] /\
  (exists m,
     mutation_logs submitted !! mutation_log_id = Some m /\
     dumps_openimis (PDict data) = Return (json_content m) /\
     loads (json_content m) = PDict data) /\
  handler_arguments (new_events submitted (snd worker)) = [(info_user, data)] /\
  (forall env' w' w0' mutation_log_id',
     receive_mutation env' info_user data w' = (Return mutation_log_id', w0') ->
     async_mutations env' = false ->
     accepted env' cls (signal_args_of cls mutation_log_id' info_user data) = true ->
     handler_arguments
       (new_events w' (snd (mutate_and_get_payload env' cls info_user data w'))) =
     handler_arguments (new_events submitted (snd worker))).
Proof.
  intros Hreceive Hasync Hdelay Haccepted Hresolve Hactivate Hnative submitted worker.
  destruct (receive_mutation_returns _ _ _ _ _ _ Hreceive)
    as (content & Hcontent & _ & Hid & Hlogs & Hqueue & Htrace).
  destruct (native_round_trip OpenIMISJSONEncoder_default _ Hnative) as (doc & Hdoc & Hloads).
  unfold dumps_openimis in Hcontent. rewrite Hcontent in Hdoc. injection Hdoc as <-.
  assert (Hverdict : verdict env cls info_user data
                       (signal_args_of cls mutation_log_id info_user data) = None).
  { unfold verdict, conclusion, execution. unfold accepted in Haccepted.
    destruct (validation env cls _) as [errors|]; [|discriminate].
    apply negb_true_iff in Haccepted. now rewrite Haccepted, Hasync, Hdelay. }
  set (m := marked None (fresh_record content info_user data)).
  assert (Hsubmitted : submitted =
    settled w0 mutation_log_id m
      (submission_messages env cls mutation_log_id
         (signal_args_of cls mutation_log_id info_user data))
      (submission_events env cls info_user data
         (signal_args_of cls mutation_log_id info_user data))).
  { subst submitted. rewrite (mutate_run _ cls _ _ _ _ _ _ Hreceive Hcontent).
    cbn [snd]. now rewrite Hverdict. }
  assert (Hm : mutation_logs submitted !! mutation_log_id = Some m).
  { rewrite Hsubmitted. cbn [settled mutation_logs]. rewrite Hlogs, Hid.
    apply list_lookup_insert_eq. rewrite length_app; simpl; lia. }
  assert (Hworker : handler_arguments (new_events submitted (snd worker)) =
                    [(info_user, data)]).
  { subst worker. unfold new_events. rewrite (task_run _ _ _ _ _ _ Hm).
    cbn [snd trace]. rewrite drop_app_length.
    unfold task_result, task_call, task_prepared. rewrite Hresolve.
    assert (match task_language m with
            | Some lang => activate_fault env lang
            | None => None
            end = None) as -> by (destruct (task_language m); auto).
    replace (json_content m) with content by reflexivity.
    rewrite Hloads. cbn [kwargs]. rewrite handler_arguments_app.
    replace (user m) with (submitter info_user) by reflexivity.
    rewrite (receive_mutation_not_anonymous _ _ _ _ _ _ Hreceive). simpl.
    now destruct (async_mutate mutation_class info_user data). }
  split; [|split; [|split; [|split]]].
  - rewrite Hsubmitted. cbn [settled task_queue]. unfold submission_messages.
    now rewrite Haccepted, Hasync, Hdelay, Hqueue.
  - rewrite Hsubmitted. unfold new_events. cbn [settled trace].
    rewrite Htrace, drop_app_length. unfold submission_events.
    rewrite Haccepted, Hasync. simpl.
    now rewrite app_nil_r, handler_arguments_notifications.
  - exists m. split; [exact Hm|]. split; [exact Hcontent|exact Hloads].
  - exact Hworker.
  - intros env' w' w0' id' Hreceive' Hsync' Haccepted'. rewrite Hworker.
    eapply inline_handler_arguments; eauto.
Qed.

(** C6 on the payload of the scenarios: the worker calls the handler with
    the principal and the data of the submission. *)
Lemma queued_task_reads_the_payload_back_witness :
  let env := process_with true [] [] in
  let someone := Some (Authenticated alice) in
  let w0 := {| mutation_logs := [fresh_record (JDict [("amount", JInt 100)]) someone payload];
               task_queue := []; active_language := Some "en"; trace := [] |} in
  let submitted := snd (mutate_and_get_payload env ChargeCard someone payload empty_world) in
  let worker := openimis_mutation_async env 0 "billing" "ChargeCard" submitted in
  receive_mutation env someone payload empty_world = (Return 0%nat, w0) /\
  async_mutations env = true /\
  delay_fault env = None /\
  accepted env ChargeCard (signal_args_of ChargeCard 0 someone payload) = true /\
  resolve env "billing" "ChargeCard" = Return ChargeCard /\
  (forall lang, activate_fault env lang = None) /\
  native (PDict payload) = true /\
  task_queue submitted =
    [{| task_mutation_id := 0; task_module := "billing"; task_class_name := "ChargeCard" |}] /\
  handler_arguments (new_events submitted (snd worker)) = [(someone, payload)].
Proof.
  do 5 (split; [reflexivity|]).
  split; [intros lang; reflexivity|]. split; [reflexivity|].
  pose proof (queued_task_reads_the_payload_back
                (process_with true [] []) ChargeCard ChargeCard
                (Some (Authenticated alice)) payload empty_world _ 0%nat
                eq_refl eq_refl eq_refl eq_refl eq_refl (fun _ => eq_refl) eq_refl)
    as (Hqueue & _ & _ & Hworker & _).
  split; [exact Hqueue|exact Hworker].
Defined.

(** C6 as stated fails on a payload that holds a [Decimal]:
    [OpenIMISJSONEncoder] writes it as a float, so the worker calls the
    handler with a float where the inline path passes the [Decimal]. *)
Lemma decimal_payload_comes_back_as_float :
  let someone := Some (Authenticated alice) in
  let data := [("amount", PDecimal one_point_ten)] in
  let submitted :=
    snd (mutate_and_get_payload (process_with true [] []) ChargeCard someone data
           empty_world) in
  let worker :=
    openimis_mutation_async (process_with true [] []) 0 "billing" "ChargeCard" submitted in
  let inline :=
    mutate_and_get_payload (process_with false [] []) ChargeCard someone data empty_world in
  json_content <$> mutation_logs submitted !! 0%nat =
    Some (JDict [("amount", JFloat (PyFloat "1"%char ".1"))]) /\
  handler_arguments (trace (snd worker)) =
    [(someone, [("amount", PFloat (PyFloat "1"%char ".1"))])] /\
  handler_arguments (trace (snd inline)) = [(someone, data)] /\
  handler_arguments (trace (snd worker)) <> handler_arguments (trace (snd inline)).
Proof.
  split; [reflexivity|]. split; [reflexivity|]. split; [reflexivity|]. discriminate.
Qed.

(** A request object in the payload comes back as a text. *)
Example request_payload_comes_back_as_text :
  let data := PDict [("request", PHttpRequest (Some (Authenticated alice)))] in
  match dumps_openimis data with
  | Return doc => loads doc = PDict [("request", PStr "HTTP_user: 7")]
  | Raise _ => False
  end.
Proof. reflexivity. Qed.

(** ** Sequences of operations *)

(** A submission leaves the records there are untouched and adds at most
    one: the new record as created, or as the [try] block marked it. *)
Lemma submit_logs env cls info_user data w :
  let w' := perform (Submit env cls info_user data) w in
  mutation_logs w' = mutation_logs w \/
  exists content,
    mutation_logs w' = mutation_logs w ++ [fresh_record content info_user data] \/
    mutation_logs w' =
      mutation_logs w ++
      [marked (verdict env cls info_user data
                 (signal_args_of cls (length (mutation_logs w)) info_user data))
              (fresh_record content info_user data)].
Proof.
  simpl.
  destruct (receive_mutation env info_user data w) as [[id|e] w0] eqn:Hreceive.
  - destruct (receive_mutation_returns _ _ _ _ _ _ Hreceive)
      as (content & Hcontent & _ & Hid & Hlogs & _ & _).
    rewrite (mutate_run _ cls _ _ _ _ _ _ Hreceive Hcontent).
    cbn [snd settled mutation_logs]. right. exists content. right.
    rewrite Hlogs, Hid. rewrite insert_app_r_alt by lia.
    now rewrite Nat.sub_diag.
  - rewrite (mutate_raises _ cls _ _ _ _ _ Hreceive). cbn [snd].
    destruct (receive_mutation_raises _ _ _ _ _ _ Hreceive) as (_ & _ & [H|[content H]]);
      [now left|right; exists content; now left].
Qed.

(** A run of the task leaves the log as it is or marks the one record it
    loaded. *)
Lemma run_logs env mutation_id module class_name w :
  let w' := perform (Run env mutation_id module class_name) w in
  match mutation_logs w !! mutation_id with
  | None => mutation_logs w' = mutation_logs w
  | Some mutation =>
      mutation_logs w' =
      <[mutation_id := marked (task_verdict env mutation module class_name) mutation]>
        (mutation_logs w)
  end.
Proof.
  simpl. destruct (mutation_logs w !! mutation_id) as [mutation|] eqn:Hm.
  - now rewrite (task_run _ _ _ _ _ _ Hm).
  - now rewrite (task_absent _ _ _ _ _ Hm).
Qed.

Lemma rank_marked verdict r : rank (status (marked verdict r)) = 2%nat.
Proof. now destruct verdict. Qed.

Lemma rank_bound s : (rank s <= 2)%nat.
Proof. destruct s; simpl; lia. Qed.

Lemma perform_keeps_rank op w i r :
  mutation_logs w !! i = Some r ->
  exists r', mutation_logs (perform op w) !! i = Some r' /\
             (rank (status r) <= rank (status r'))%nat.
Proof.
  intros Hr. destruct op as [env cls info_user data|env mutation_id module class_name].
  - destruct (submit_logs env cls info_user data w) as [H|[content [H|H]]];
      rewrite H; exists r; (split; [|lia]);
      try (apply lookup_app_l_Some); exact Hr.
  - pose proof (run_logs env mutation_id module class_name w) as H.
    destruct (mutation_logs w !! mutation_id) as [mutation|] eqn:Hm.
    + rewrite H. destruct (decide (mutation_id = i)) as [->|Hne].
      * eexists. split.
        { apply list_lookup_insert_eq. now apply lookup_lt_Some in Hr. }
        rewrite rank_marked. apply rank_bound.
      * exists r. split; [|lia]. now rewrite list_lookup_insert_ne.
    + rewrite H. exists r. split; [exact Hr|lia].
Qed.

(** C2. Over every sequence of submissions and task runs, the status of a
    record only moves forward: from [RECEIVED] or [PENDING_EXECUTION] to a
    terminal status, never back; a record that is [SUCCESS] or [FAILED] is
    [SUCCESS] or [FAILED] ever after, and is never again [RECEIVED] or
    [PENDING_EXECUTION]. *)
Theorem terminal_status_is_never_left (ops : list operation) (w : world)
    (i : nat) (r : MutationLog) :
  mutation_logs w !! i = Some r ->
  exists r',
    mutation_logs (perform_all ops w) !! i = Some r' /\
    (rank (status r) <= rank (status r'))%nat /\
    (terminal (status r) = true ->
     terminal (status r') = true /\
     status r' <> RECEIVED /\ status r' <> PENDING_EXECUTION).
Proof.
  revert w r. induction ops as [|op ops IH]; intros w r Hr.
  - exists r. split; [exact Hr|]. split; [lia|].
    intros Ht. now destruct (status r).
  - destruct (perform_keeps_rank op w i r Hr) as (r1 & Hr1 & Hrank1).
    destruct (IH _ _ Hr1) as (r' & Hr' & Hrank & _).
    exists r'. split; [exact Hr'|]. split; [lia|].
    intros Ht.
    assert (rank (status r) = 2%nat) as Hfull by (now destruct (status r)).
    assert (rank (status r') = 2%nat) as Hfull'.
    { pose proof (rank_bound (status r')). lia. }
    now destruct (status r').
Qed.

(** C2 on a record that the coordinator marked in asynchronous mode and that
    the task executor then runs twice, with a handler that raises. *)
Lemma terminal_status_is_never_left_witness :
  let env := process_with true [] [] in
  let submitted :=
    perform (Submit env SlowCard (Some (Authenticated alice)) payload) empty_world in
  let retries := [Run env 0 "billing" "SlowCard"; Run env 0 "billing" "ChargeCard"] in
  (exists r, mutation_logs submitted !! 0%nat = Some r /\ status r = SUCCESS) /\
  (exists r', mutation_logs (perform_all retries submitted) !! 0%nat = Some r' /\
              terminal (status r') = true /\
              status r' <> RECEIVED /\ status r' <> PENDING_EXECUTION).
Proof.
  split; [eexists; split; reflexivity|].
  destruct (terminal_status_is_never_left
              [Run (process_with true [] []) 0 "billing" "SlowCard";
               Run (process_with true [] []) 0 "billing" "ChargeCard"]
              (perform (Submit (process_with true [] []) SlowCard
                          (Some (Authenticated alice)) payload) empty_world)
              0%nat _ eq_refl) as (r' & Hr' & _ & Hterminal).
  exists r'. split; [exact Hr'|]. apply Hterminal. reflexivity.
Defined.

(** ** The error detail *)

Lemma pretty_N_go_nonempty (x : N) (s : string) : s <> "" -> pretty_N_go x s <> "".
Proof.
  revert s. induction (N.lt_wf_0 x) as [x _ IH]. intros s Hs.
  assert (x = 0 \/ 0 < x)%N as [->|Hpos] by lia.
  - now rewrite pretty_N_go_0.
  - rewrite pretty_N_go_step by exact Hpos. apply IH; [|discriminate].
    now apply N.div_lt.
Qed.

Lemma pretty_Z_nonempty (n : Z) : pretty n <> "".
Proof.
  assert (forall p : positive, pretty p <> "") as Hpos.
  { intros p. unfold pretty, pretty_positive, pretty, pretty_N.
    destruct (decide (N.pos p = 0%N)); [discriminate|].
    rewrite pretty_N_go_step by lia. apply pretty_N_go_nonempty. discriminate. }
  destruct n as [|p|p]; unfold pretty, pretty_Z; [discriminate|apply Hpos|discriminate].
Qed.

(** The text of a JSON document is never empty. *)
Lemma doc_text_nonempty (doc : json) : doc_text doc <> "".
Proof.
  destruct doc as [|[]|n|f|s|l|d]; simpl; try discriminate.
  apply pretty_Z_nonempty.
Qed.

Lemma eqb_empty_false (s : string) : s <> "" -> negb (String.eqb s "") = true.
Proof.
  intros Hs. apply negb_true_iff. now apply String.eqb_neq.
Qed.

Lemma verdict_nonempty env cls info_user data args d :
  (forall e, conclusion env cls info_user data args = Raise e -> exn_str e <> "") ->
  verdict env cls info_user data args = Some d ->
  detail_nonempty d = true.
Proof.
  unfold verdict. intros Hfaults.
  destruct (conclusion env cls info_user data args) as [v|e] eqn:Hc.
  - intros ->. revert Hc. unfold conclusion, serialized.
    destruct (validation env cls args) as [errors|]; [|discriminate].
    destruct (truthy (PList errors)).
    + destruct (dumps (PList errors)); [|discriminate].
      intros [= <-]. apply eqb_empty_false, doc_text_nonempty.
    + destruct (execution env cls info_user data) as [error_messages|]; [|discriminate].
      destruct (negb (truthy error_messages)); [discriminate|].
      destruct (dumps error_messages); [|discriminate].
      intros [= <-]. apply eqb_empty_false, doc_text_nonempty.
  - intros [= <-]. simpl. apply eqb_empty_false. now apply Hfaults.
Qed.

Lemma task_verdict_nonempty env mutation module class_name d :
  (forall e, task_result env mutation module class_name = Raise e -> exn_str e <> "") ->
  task_verdict env mutation module class_name = Some d ->
  detail_nonempty d = true.
Proof.
  unfold task_verdict. intros Hfaults.
  destruct (task_result env mutation module class_name) as [result|e].
  - destruct (truthy result) eqn:Ht; intros [= <-]. exact Ht.
  - intros [= <-]. simpl. apply eqb_empty_false. now apply Hfaults.
Qed.

Lemma perform_preserves (P : MutationLog -> Prop) op w :
  writes P op -> Forall P (mutation_logs w) -> Forall P (mutation_logs (perform op w)).
Proof.
  intros Hwrites Hall.
  destruct op as [env cls info_user data|env mutation_id module class_name].
  - destruct (submit_logs env cls info_user data w) as [H|[content [H|H]]];
      rewrite H; [exact Hall| |];
      apply Forall_app; (split; [exact Hall|]);
      repeat constructor; apply (Hwrites content (length (mutation_logs w))).
  - pose proof (run_logs env mutation_id module class_name w) as H.
    destruct (mutation_logs w !! mutation_id); rewrite H; [|exact Hall].
    apply Forall_insert; [exact Hall|apply Hwrites].
Qed.

Lemma perform_all_preserves (P : MutationLog -> Prop) ops w :
  Forall (writes P) ops ->
  Forall P (mutation_logs w) -> Forall P (mutation_logs (perform_all ops w)).
Proof.
  intros Hops. revert w. induction Hops as [|op ops Hop _ IH]; intros w Hall; [exact Hall|].
  simpl. apply IH. now apply perform_preserves.
Qed.

Lemma marked_populated verdict r : populated_iff_failed (marked verdict r).
Proof.
  unfold populated_iff_failed. destruct verdict as [d|]; simpl.
  - split; [reflexivity|eauto].
  - split; [intros [d Hd]; discriminate|discriminate].
Qed.

Lemma writes_populated op : writes populated_iff_failed op.
Proof.
  destruct op; simpl.
  - intros content mutation_log_id. split; [|apply marked_populated].
    unfold populated_iff_failed; simpl. split; [intros [d Hd]; discriminate|discriminate].
  - intros mutation. apply marked_populated.
Qed.

Lemma writes_detailed op : faults_have_text op -> writes detailed_iff_failed op.
Proof.
  destruct op as [env cls info_user data|env mutation_id module class_name]; simpl.
  - intros Hfaults content mutation_log_id. split; [discriminate|].
    unfold detailed_iff_failed; simpl.
    destruct (verdict env cls info_user data _) as [d|] eqn:Hv; [|discriminate].
    split; [reflexivity|]. eapply verdict_nonempty; [|exact Hv]. apply Hfaults.
  - intros Hfaults mutation. unfold detailed_iff_failed; simpl.
    destruct (task_verdict env mutation module class_name) as [d|] eqn:Hv; [|discriminate].
    split; [reflexivity|]. eapply task_verdict_nonempty; [|exact Hv]. apply Hfaults.
Qed.

(** C8, as the code has it.  Over every sequence of submissions and task
    runs, a record holds an error detail exactly when it is [FAILED]; and as
    long as every fault that is raised carries a text, the detail of a
    [FAILED] record is never empty: the coordinator and the executor mark a
    record failed with a JSON text, with a handler's non-empty value, or
    with a fault. *)
Theorem error_detail_marks_failure (ops : list operation) (w : world) :
  Forall populated_iff_failed (mutation_logs w) ->
  Forall populated_iff_failed (mutation_logs (perform_all ops w)) /\
  (Forall faults_have_text ops ->
   Forall detailed_iff_failed (mutation_logs w) ->
   Forall detailed_iff_failed (mutation_logs (perform_all ops w))).
Proof.
  intros Hpopulated. split.
  - apply perform_all_preserves; [|exact Hpopulated].
    apply List.Forall_forall. intros op _. apply writes_populated.
  - intros Hfaults. apply perform_all_preserves.
    eapply Forall_impl; [exact Hfaults|]. intros op. apply writes_detailed.
Qed.

(** C8 on a sequence whose faults carry a text: a submission rejected by a
    subscriber, then a run of the task on that record with a handler that
    raises "network timeout". *)
Lemma error_detail_marks_failure_witness :
  let ops :=
    [Submit (process_with false [funds_check] []) ChargeCard
       (Some (Authenticated alice)) payload;
     Run (process_with true [] []) 0 "billing" "SlowCard"] in
  Forall populated_iff_failed (mutation_logs empty_world) /\
  Forall faults_have_text ops /\
  Forall detailed_iff_failed (mutation_logs empty_world) /\
  Forall populated_iff_failed (mutation_logs (perform_all ops empty_world)) /\
  Forall detailed_iff_failed (mutation_logs (perform_all ops empty_world)) /\
  error <$> mutation_logs (perform_all ops empty_world) !! 0%nat =
    Some (Some (Text "network timeout")).
Proof.
  assert (Hfaults : Forall faults_have_text
            [Submit (process_with false [funds_check] []) ChargeCard
               (Some (Authenticated alice)) payload;
             Run (process_with true [] []) 0 "billing" "SlowCard"]).
  { repeat constructor.
    - intros mutation_log_id e H. vm_compute in H. discriminate.
    - intros mutation e. unfold task_result, task_prepared. simpl.
      destruct (task_language mutation); simpl;
        (destruct (loads (json_content mutation)); simpl; intros [= <-]; discriminate). }
  destruct (error_detail_marks_failure
              [Submit (process_with false [funds_check] []) ChargeCard
                 (Some (Authenticated alice)) payload;
               Run (process_with true [] []) 0 "billing" "SlowCard"]
              empty_world (List.Forall_nil _)) as [Hpopulated Hdetailed].
  split; [constructor|]. split; [exact Hfaults|]. split; [constructor|].
  split; [exact Hpopulated|]. split; [|reflexivity].
  apply Hdetailed; [exact Hfaults|constructor].
Defined.

(** C8 as stated fails on a fault without a message: the handler raises an
    [AssertionError] with no text, the task marks the record [FAILED] with
    [str(exc)], and that detail is the empty string. *)
Lemma failed_record_with_empty_detail :
  let env := process_with true [] [] in
  let submitted :=
    perform (Submit env AssertingCard (Some (Authenticated alice)) payload) empty_world in
  let after := perform (Run env 0 "billing" "AssertingCard") submitted in
  status <$> mutation_logs after !! 0%nat = Some FAILED /\
  error <$> mutation_logs after !! 0%nat = Some (Some (Text "")) /\
  detail_nonempty (Text "") = false /\
  ~ Forall detailed_iff_failed (mutation_logs after).
Proof.
  split; [reflexivity|]. split; [reflexivity|]. split; [reflexivity|].
  intros H. inversion H as [|r rest Hr _]; subst.
  destruct Hr as [_ Hr]. discriminate.
Qed.

(** X21. No operation ever writes [PENDING_EXECUTION]: a record is created
    [RECEIVED] and is marked [SUCCESS] or [FAILED], so over every sequence
    of submissions and task runs no record of the log is ever
    [PENDING_EXECUTION] unless it was so before. *)
Lemma pending_execution_is_never_written (ops : list operation) (w : world) :
  Forall (fun r => status r <> PENDING_EXECUTION) (mutation_logs w) ->
  Forall (fun r => status r <> PENDING_EXECUTION) (mutation_logs (perform_all ops w)).
Proof.
  apply perform_all_preserves. apply List.Forall_forall. intros op _.
  destruct op as [env cls info_user data|env mutation_id module class_name]; simpl.
  - intros content mutation_log_id. split; [discriminate|].
    now destruct (verdict env cls info_user data _).
  - intros mutation. now destruct (task_verdict env mutation module class_name).
Qed.

(** * Further properties of the code *)

(** ** The scalars *)

(** X1. [SmallInt.parse_literal] returns [n] exactly for the integer literal
    [n] with -32768 <= n <= 32767, and [TinyInt.parse_literal] exactly for the
    integer literal [n] with 0 <= n <= 255; every other literal gives [None],
    and what [TinyInt] accepts [SmallInt] accepts with the same value. *)
Theorem parse_literal_accepts_its_range (node : ast) (n : Z) :
  (SmallInt_parse_literal node = Some n <-> node = IntValue n /\ -32768 <= n <= 32767) /\
  (TinyInt_parse_literal node = Some n <-> node = IntValue n /\ 0 <= n <= 255) /\
  (TinyInt_parse_literal node = Some n -> SmallInt_parse_literal node = Some n).
Proof.
  unfold SmallInt_parse_literal, TinyInt_parse_literal, Int_parse_literal,
    MIN_INT, MAX_INT, MIN_SMALLINT, MAX_SMALLINT, MIN_TINYINT, MAX_TINYINT.
  destruct node as [value| | | | | |];
    try (cbn; (split; [split|split; [split|]]); intros Hgoal;
         solve [discriminate Hgoal | discriminate (proj1 Hgoal)]).
  destruct ((-2147483648 <=? value) && (value <=? 2147483647))%Z eqn:Eint;
    destruct ((-32768 <=? value) && (value <=? 32767))%Z eqn:Esmall;
    destruct ((0 <=? value) && (value <=? 255))%Z eqn:Etiny;
    rewrite ?andb_true_iff, ?andb_false_iff, ?Z.leb_le, ?Z.leb_gt in Eint, Esmall, Etiny;
    cbn; (split; [split|split; [split|]]); intros Hgoal;
    try discriminate Hgoal;
    try (injection Hgoal as <-);
    try (destruct Hgoal as [Hgoal ?]; injection Hgoal as <-);
    try (split; [reflexivity|]);
    first [reflexivity | lia | exfalso; lia].
Qed.

(** ** The encoder and the stored payload *)

Lemma json_nested_ind (P : json -> Prop) :
  P JNull -> (forall b, P (JBool b)) -> (forall n, P (JInt n)) ->
  (forall f, P (JFloat f)) -> (forall s, P (JStr s)) ->
  (forall l, Forall P l -> P (JList l)) ->
  (forall d, Forall (fun kv => P (snd kv)) d -> P (JDict d)) ->
  forall j, P j.
Proof.
  intros HNull HBool HInt HFloat HStr HList HDict.
  fix IH 1. intros [|b|n|f|s|l|d];
    [exact HNull|apply HBool|apply HInt|apply HFloat|apply HStr| |].
  - apply HList. induction l as [|x l IHl]; constructor; [apply IH|exact IHl].
  - apply HDict. induction d as [|[k x] d IHd]; constructor; [apply IH|exact IHd].
Qed.

Lemma dict_set_keys (d : pydict) k v :
  map fst (dict_set d k v) =
  if existsb (String.eqb k) (map fst d) then map fst d else map fst d ++ [k].
Proof.
  induction d as [|[k' v'] d IH]; simpl; [reflexivity|].
  destruct (String.eqb k k') eqn:E; simpl; [reflexivity|].
  rewrite IH. now destruct (existsb (String.eqb k) (map fst d)).
Qed.

Lemma distinct_snoc (keys : list string) k :
  existsb (String.eqb k) keys = false -> distinct keys = true ->
  distinct (keys ++ [k]) = true.
Proof.
  induction keys as [|a keys IH]; simpl; [reflexivity|].
  intros Hk Hd. apply orb_false_iff in Hk as [Hka Hk].
  apply andb_true_iff in Hd as [Ha Hd].
  rewrite existsb_app, IH by assumption. simpl.
  rewrite String.eqb_sym, Hka. apply negb_true_iff in Ha. now rewrite Ha.
Qed.

Lemma dict_set_native (d : pydict) k v :
  native (PDict d) = true -> native v = true -> native (PDict (dict_set d k v)) = true.
Proof.
  simpl. intros Hd Hv. apply andb_true_iff in Hd as [Hvalues Hkeys].
  apply andb_true_iff. split.
  - clear Hkeys. induction d as [|[k' v'] d IH]; simpl in *; [now rewrite Hv|].
    apply andb_true_iff in Hvalues as [Hv' Hvalues].
    destruct (String.eqb k k'); simpl; [now rewrite Hv, Hvalues|].
    now rewrite Hv', IH.
  - rewrite dict_set_keys.
    destruct (existsb (String.eqb k) (map fst d)) eqn:E; [assumption|].
    now apply distinct_snoc.
Qed.

Lemma loads_native (doc : json) : native (loads doc) = true.
Proof.
  induction doc as [|b|n|f|s|l IHl|d IHd] using json_nested_ind; try reflexivity.
  - simpl. induction IHl as [|x l Hx _ IH]; simpl; [reflexivity|]. now rewrite Hx, IH.
  - simpl loads.
    assert (forall acc, native (PDict acc) = true ->
              native (PDict (fold_left
                (fun acc kv => dict_set acc (fst kv) (loads (snd kv))) d acc)) = true)
      as Hfold.
    { induction IHd as [|[k x] d Hx _ IH]; intros acc Hacc; [exact Hacc|].
      simpl fold_left. apply IH. now apply dict_set_native. }
    now apply Hfold.
Qed.


(** X3. Whatever document the [json_content] column holds, [json.loads]
    gives the task a value made of [None], booleans, numbers, strings, lists
    and dicts only (never a [Decimal], a request or another object), and
    writing that value with the encoder and reading it again gives the same
    value: the payload changes on the first trip through the store at most. *)
Theorem stored_payload_is_native_and_stable (doc : json) :
  native (loads doc) = true /\
  foreign_objects (loads doc) = [] /\
  exists doc', dumps_openimis (loads doc) = Return doc' /\ loads doc' = loads doc.
Proof.
  pose proof (loads_native doc) as Hn.
  split; [exact Hn|]. split.
  - generalize (loads doc) Hn. clear.
    induction p as [|b|n|f|s|l IHl|d IHd|d|u|t] using pyval_nested_ind;
      simpl; intros Hn; try reflexivity; try discriminate Hn.
    + induction IHl as [|x l Hx _ IH]; simpl in *; [reflexivity|].
      apply andb_true_iff in Hn as [Hx' Hl]. now rewrite Hx, IH.
    + apply andb_true_iff in Hn as [Hn _].
      induction IHd as [|[k x] d Hx _ IH]; simpl in *; [reflexivity|].
      apply andb_true_iff in Hn as [Hx' Hd]. now rewrite Hx, IH.
  - exact (native_round_trip OpenIMISJSONEncoder_default (loads doc) Hn).
Qed.
(** ** Ordering keys and visibility *)

Lemma lower_char_idempotent (c : ascii) : lower_char (lower_char c) = lower_char c.
Proof. destruct c as [[] [] [] [] [] [] [] []]; reflexivity. Qed.

Lemma lower_char_fixed_not_upper (c : ascii) : lower_char c = c -> is_upper c = false.
Proof.
  destruct c as [[] [] [] [] [] [] [] []]; intros H; first [reflexivity | discriminate H].
Qed.

Lemma lower_char_question (c : ascii) : lower_char c = "?"%char -> c = "?"%char.
Proof.
  destruct c as [[] [] [] [] [] [] [] []]; intros H; first [reflexivity | discriminate H].
Qed.

Lemma lower_idempotent (s : string) : lower (lower s) = lower s.
Proof. induction s as [|c s IH]; simpl; [reflexivity|]. now rewrite lower_char_idempotent, IH. Qed.

Lemma sub_capitalised_fixed (in_run : bool) (name : string) :
  lower name = name -> sub_capitalised in_run name = name.
Proof.
  revert in_run. induction name as [|c rest IH]; intros in_run Hlower; [reflexivity|].
  injection Hlower as Hc Hrest.
  cbn [sub_capitalised].
  destruct (in_run && is_lower c); [now rewrite IH|].
  destruct rest as [|u [|l rest']]; [reflexivity|now rewrite IH|].
  pose proof Hrest as Hu. injection Hu as Hu _.
  rewrite (lower_char_fixed_not_upper u Hu), andb_false_r. cbn [andb].
  rewrite IH; [reflexivity|assumption].
Qed.

Lemma sub_boundary_fixed (name : string) : lower name = name -> sub_boundary name = name.
Proof.
  induction name as [|c rest IH]; intros Hlower; [reflexivity|].
  injection Hlower as Hc Hrest.
  cbn [sub_boundary].
  destruct rest as [|u rest']; [reflexivity|].
  injection Hrest as Hu Hrest'.
  rewrite (lower_char_fixed_not_upper u Hu), andb_false_r.
  rewrite IH; [reflexivity|]. simpl. now rewrite Hu, Hrest'.
Qed.

Lemma to_snake_case_twice (s : string) : to_snake_case (to_snake_case s) = to_snake_case s.
Proof.
  assert (lower (to_snake_case s) = to_snake_case s) as Hlower
    by (unfold to_snake_case; apply lower_idempotent).
  unfold to_snake_case at 1.
  now rewrite sub_capitalised_fixed, sub_boundary_fixed, Hlower.
Qed.

Lemma length_lower (s : string) : String.length (lower s) = String.length s.
Proof. induction s as [|c s IH]; simpl; [reflexivity|]. now rewrite IH. Qed.

Lemma length_sub_capitalised (n : nat) :
  forall (in_run : bool) (s : string),
    (String.length s <= n)%nat ->
    (String.length s <= String.length (sub_capitalised in_run s))%nat.
Proof.
  induction n as [|n IH]; intros in_run [|c rest] Hn; simpl in Hn; try (simpl; lia).
  cbn [sub_capitalised].
  destruct (in_run && is_lower c).
  { simpl. specialize (IH true rest). lia. }
  destruct rest as [|u [|l rest']].
  - simpl. lia.
  - specialize (IH false (String u EmptyString)). simpl in *. lia.
  - destruct (negb (is_newline c) && is_upper u && is_lower l).
    + specialize (IH true rest'). simpl in *. lia.
    + specialize (IH false (String u (String l rest'))).
      cbn [String.length] in *. lia.
Qed.

Lemma length_sub_boundary (n : nat) :
  forall s : string,
    (String.length s <= n)%nat ->
    (String.length s <= String.length (sub_boundary s))%nat.
Proof.
  induction n as [|n IH]; intros [|c rest] Hn; simpl in Hn; try (simpl; lia).
  cbn [sub_boundary].
  destruct rest as [|u rest']; [simpl; lia|].
  destruct ((is_lower c || is_digit c) && is_upper u).
  - specialize (IH rest'). simpl in *. lia.
  - specialize (IH (String u rest')). cbn [String.length] in *. lia.
Qed.

Lemma length_to_snake_case (s : string) :
  (String.length s <= String.length (to_snake_case s))%nat.
Proof.
  unfold to_snake_case. rewrite length_lower.
  etransitivity; [apply (length_sub_capitalised (String.length s) false); lia|].
  apply (length_sub_boundary (String.length (sub_capitalised false s))). lia.
Qed.

Lemma to_snake_case_question (k : string) : to_snake_case k = "?" -> k = "?".
Proof.
  intros H. pose proof (length_to_snake_case k) as Hlen. rewrite H in Hlen.
  destruct k as [|c [|c' rest]]; simpl in Hlen; [discriminate H| |lia].
  cbn in H. injection H as H. now rewrite (lower_char_question c H).
Qed.

Lemma snake_key_normalised (k : string) : snake_key (to_snake_case k) = snake_key k.
Proof.
  unfold snake_key. destruct (String.eqb k "?") eqn:Ek.
  - apply String.eqb_eq in Ek as ->. reflexivity.
  - destruct (String.eqb (to_snake_case k) "?") eqn:Es.
    + apply String.eqb_eq, to_snake_case_question in Es.
      apply String.eqb_neq in Ek. contradiction.
    + simpl. now rewrite to_snake_case_twice.
Qed.

Lemma filter_idempotent {A} (f : A -> bool) (l : list A) :
  List.filter f (List.filter f l) = List.filter f l.
Proof.
  induction l as [|x l IH]; simpl; [reflexivity|].
  destruct (f x) eqn:E; simpl; [now rewrite E, IH|exact IH].
Qed.

(** X4. A name that [str.lower] leaves as it is (no capital letter in it) is
    left as it is by [to_snake_case]: a client may give an ordering key in
    the column's own spelling, with or without the leading minus sign. *)
Theorem snake_case_names_are_kept (name : string) :
  lower name = name -> to_snake_case name = name.
Proof.
  intros Hlower. unfold to_snake_case.
  now rewrite sub_capitalised_fixed, sub_boundary_fixed, Hlower.
Qed.

Lemma snake_case_names_are_kept_witness :
  lower "-request_date_time" = "-request_date_time" /\
  to_snake_case "-request_date_time" = "-request_date_time".
Proof.
  split; [reflexivity|].
  apply (snake_case_names_are_kept "-request_date_time"). reflexivity.
Defined.

(** X5. [to_snake_case] is idempotent, and [connection_resolver] builds the
    same [ORDER BY] clause from ordering keys that were already converted as
    from the keys as the client spelled them; the key ["?"] still stands for
    the random order. *)
Theorem ordering_keys_normalise_once (qs : QuerySet) (s : string) (keys : list string) :
  to_snake_case (to_snake_case s) = to_snake_case s /\
  connection_resolver qs (Some (OrderList (map to_snake_case keys))) =
  connection_resolver qs (Some (OrderList keys)).
Proof.
  split; [apply to_snake_case_twice|].
  destruct keys as [|k keys]; [reflexivity|].
  unfold connection_resolver. cbn [order_truthy map].
  f_equal. f_equal. cbn [map]. rewrite snake_key_normalised. f_equal.
  rewrite map_map. apply map_ext. intros a. apply snake_key_normalised.
Qed.

(** X6. The visibility rule of [get_queryset] and the ordering of
    [connection_resolver] can be applied in either order with the same
    result, and applying the visibility rule a second time changes
    nothing. *)
Theorem visibility_commutes_with_ordering (qs : QuerySet) (requester : principal)
    (order : option order_arg) :
  connection_resolver (get_queryset qs requester) order =
    match connection_resolver qs order with
    | Return ordered => Return (get_queryset ordered requester)
    | Raise e => Raise e
    end /\
  get_queryset (get_queryset qs requester) requester = get_queryset qs requester.
Proof.
  split.
  - assert (forall fields,
              get_queryset (order_by qs fields) requester =
              order_by (get_queryset qs requester) fields) as Hfields.
    { intros fields. destruct requester as [|u]; [reflexivity|].
      unfold get_queryset. simpl. now destruct (is_superuser_flag u). }
    unfold connection_resolver.
    destruct (order_truthy order); [|reflexivity].
    destruct order as [[s|keys]|]; [|now rewrite Hfields|reflexivity].
    destruct (String.eqb s "?"); [reflexivity|]. now rewrite Hfields.
  - destruct requester as [|u]; [reflexivity|].
    unfold get_queryset. simpl. destruct (is_superuser_flag u); [reflexivity|].
    unfold filter_user. simpl. f_equal. apply filter_idempotent.
Qed.
(** ** The coordinator, case by case *)

Lemma activate_user_language_faults env info_user w e w' :
  activate_user_language env info_user w = (Raise e, w') ->
  (info_user = Some AnonymousUser /\
   e = Exn "AttributeError" "'AnonymousUser' object has no attribute 'language'") \/
  (exists u code,
     info_user = Some (Authenticated u) /\
     (language u = Some (LanguageRow code) \/ language u = Some (LanguageCode code)) /\
     activate_fault env (LanguageCode code) = Some e).
Proof.
  destruct info_user as [[|u]|]; simpl.
  - intros [= <- <-]. now left.
  - intros H. right. exists u.
    destruct (language u) as [[code|code]|]; simpl in H;
      try discriminate H;
      try (destruct (negb (String.eqb code "")); [|discriminate H]);
      unfold translation_activate in H;
      destruct (activate_fault env (LanguageCode code)) as [e'|] eqn:Hfault;
      try discriminate H; injection H as <- <-; exists code; auto.
  - discriminate.
Qed.

Lemma receive_mutation_faults env info_user data w e w0 :
  receive_mutation env info_user data w = (Raise e, w0) ->
  (dumps_openimis (PDict data) = Raise e /\ mutation_logs w0 = mutation_logs w) \/
  (create_fault env = Some e /\ mutation_logs w0 = mutation_logs w) \/
  (exists content,
     dumps_openimis (PDict data) = Return content /\
     mutation_logs w0 = mutation_logs w ++ [fresh_record content info_user data] /\
     ((info_user = Some AnonymousUser /\
       e = Exn "AttributeError" "'AnonymousUser' object has no attribute 'language'") \/
      (exists u code,
         info_user = Some (Authenticated u) /\
         (language u = Some (LanguageRow code) \/ language u = Some (LanguageCode code)) /\
         activate_fault env (LanguageCode code) = Some e))).
Proof.
  unfold receive_mutation, mbind, M_bind, lift, MutationLog_create, mret, M_ret.
  destruct (dumps_openimis (PDict data)) as [content|e'].
  2:{ intros [= <- <-]. auto. }
  destruct (create_fault env).
  { intros [= <- <-]. auto. }
  match goal with
  | |- context [activate_user_language env info_user ?w1] =>
      pose proof (activate_user_language_frame env info_user w1) as (Hl & _ & _);
      destruct (activate_user_language env info_user w1) as [[[]|e'] w2] eqn:Hactivate
  end; [discriminate|].
  intros [= <- <-]. right. right. exists content. simpl in Hl.
  split; [reflexivity|]. split; [exact Hl|].
  exact (activate_user_language_faults _ _ _ _ _ Hactivate).
Qed.

Lemma signal_of_module_raises signals module e :
  signal_of_module signals module = Raise e ->
  e = Exn "KeyError" ("'" +:+ module +:+ "'").
Proof.
  induction signals as [|[m s] signals IH]; simpl; [now intros [= <-]|].
  destruct (String.eqb module m); [discriminate|exact IH].
Qed.

(** X7. When [mutate_and_get_payload] returns, the id it gives is the
    position of one new record at the end of the log; the records that were
    there are as they were; the new record is [SUCCESS] or [FAILED], never
    left [RECEIVED]; and it holds the payload as the encoder wrote it, the
    acting user and the client's id and label. *)
Theorem returned_submission_is_finished (env : environment) (cls : MutationClass)
    (info_user : option principal) (data : pydict) (w : world) (mutation_log_id : nat) :
  fst (mutate_and_get_payload env cls info_user data w) = Return mutation_log_id ->
  let w' := snd (mutate_and_get_payload env cls info_user data w) in
  mutation_log_id = length (mutation_logs w) /\
  length (mutation_logs w') = S (length (mutation_logs w)) /\
  take (length (mutation_logs w)) (mutation_logs w') = mutation_logs w /\
  exists m,
    mutation_logs w' !! mutation_log_id = Some m /\
    terminal (status m) = true /\
    dumps_openimis (PDict data) = Return (json_content m) /\
    user m = submitter info_user /\
    client_mutation_id m = dict_get data "client_mutation_id" /\
    client_mutation_label m = dict_get data "client_mutation_label".
Proof.
  intros Hreturn w'. subst w'.
  destruct (receive_mutation env info_user data w) as [[id|e] w0] eqn:Hreceive.
  2:{ rewrite (mutate_raises _ cls _ _ _ _ _ Hreceive) in Hreturn. discriminate Hreturn. }
  destruct (receive_mutation_returns _ _ _ _ _ _ Hreceive)
    as (content & Hcontent & _ & Hid & Hlogs & _ & _).
  rewrite (mutate_run _ cls _ _ _ _ _ _ Hreceive Hcontent) in Hreturn |- *.
  cbn [fst] in Hreturn. injection Hreturn as <-.
  cbn [snd settled mutation_logs]. rewrite Hlogs, Hid.
  rewrite insert_app_r_alt by lia. rewrite Nat.sub_diag. cbn [insert list_insert].
  split; [reflexivity|]. split; [rewrite length_app; simpl; lia|].
  split; [apply take_app_length|].
  eexists. split; [apply list_lookup_middle; reflexivity|].
  cbn. repeat split; try assumption.
  now destruct (verdict env cls info_user data _).
Qed.

Lemma returned_submission_is_finished_witness :
  let run := mutate_and_get_payload (process_with false [funds_check] []) ChargeCard
               (Some (Authenticated alice)) payload empty_world in
  fst run = Return 0%nat /\
  length (mutation_logs (snd run)) = 1%nat /\
  exists m, mutation_logs (snd run) !! 0%nat = Some m /\ terminal (status m) = true.
Proof.
  assert (fst (mutate_and_get_payload (process_with false [funds_check] []) ChargeCard
                 (Some (Authenticated alice)) payload empty_world) = Return 0%nat)
    as Hreturn by reflexivity.
  destruct (returned_submission_is_finished _ _ _ _ _ _ Hreturn)
    as (_ & Hlength & _ & m & Hm & Hterminal & _).
  split; [exact Hreturn|]. split; [exact Hlength|]. exists m. now split.
Defined.

(** X8. When [mutate_and_get_payload] raises, no subscriber and no handler
    was called and nothing was queued.  The exception comes from one of
    three places: the encoder refused the payload or the store refused the
    record, and then the log is as it was; or the language could not be
    activated (the anonymous user has no [language], or
    [translation.activate] failed), and then the log has one new record,
    which stays [RECEIVED] without a detail. *)
Theorem raised_submission_called_no_one (env : environment) (cls : MutationClass)
    (info_user : option principal) (data : pydict) (w : world) (e : exn) :
  fst (mutate_and_get_payload env cls info_user data w) = Raise e ->
  let w' := snd (mutate_and_get_payload env cls info_user data w) in
  trace w' = trace w /\
  task_queue w' = task_queue w /\
  ((dumps_openimis (PDict data) = Raise e /\ mutation_logs w' = mutation_logs w) \/
   (create_fault env = Some e /\ mutation_logs w' = mutation_logs w) \/
   (exists content,
      dumps_openimis (PDict data) = Return content /\
      mutation_logs w' =
        mutation_logs w ++
        [{| json_content := content; user := submitter info_user;
            client_mutation_id := dict_get data "client_mutation_id";
            client_mutation_label := dict_get data "client_mutation_label";
            status := RECEIVED; error := None |}] /\
      ((info_user = Some AnonymousUser /\
        e = Exn "AttributeError" "'AnonymousUser' object has no attribute 'language'") \/
       (exists u code,
          info_user = Some (Authenticated u) /\
          (language u = Some (LanguageRow code) \/ language u = Some (LanguageCode code)) /\
          activate_fault env (LanguageCode code) = Some e)))).
Proof.
  intros Hraise w'. subst w'.
  destruct (receive_mutation env info_user data w) as [[id|e'] w0] eqn:Hreceive.
  { destruct (receive_mutation_returns _ _ _ _ _ _ Hreceive) as (content & Hcontent & _).
    rewrite (mutate_run _ cls _ _ _ _ _ _ Hreceive Hcontent) in Hraise.
    discriminate Hraise. }
  rewrite (mutate_raises _ cls _ _ _ _ _ Hreceive) in Hraise |- *.
  cbn [fst] in Hraise. injection Hraise as ->. cbn [snd].
  destruct (receive_mutation_raises _ _ _ _ _ _ Hreceive) as (Hqueue & Htrace & _).
  split; [exact Htrace|]. split; [exact Hqueue|].
  exact (receive_mutation_faults _ _ _ _ _ _ Hreceive).
Qed.

Lemma raised_submission_called_no_one_witness :
  let env := {| async_mutations := false; signal_mutation := [funds_check];
                signal_mutation_module := [("billing", [])];
                installed_schemas := [("billing", billing_schema)];
                create_fault := Some (Exn "OperationalError" "connection refused");
                delay_fault := None; activate_fault := fun _ => None |} in
  let run := mutate_and_get_payload env ChargeCard (Some (Authenticated alice)) payload
               empty_world in
  fst run = Raise (Exn "OperationalError" "connection refused") /\
  trace (snd run) = [] /\ task_queue (snd run) = [].
Proof.
  intros env run.
  assert (fst run = Raise (Exn "OperationalError" "connection refused")) as Hraise
    by reflexivity.
  destruct (raised_submission_called_no_one _ _ _ _ _ _ Hraise) as (Htrace & Hqueue & _).
  split; [exact Hraise|]. split; [exact Htrace|exact Hqueue].
Defined.
Lemma accepted_verdict env cls info_user data args :
  accepted env cls args = true ->
  verdict env cls info_user data args =
  match execution env cls info_user data with
  | Raise exc => Some (Fault exc)
  | Return error_messages =>
      if truthy error_messages then
        match dumps error_messages with
        | Return doc => Some (Text (doc_text doc))
        | Raise exc => Some (Fault exc)
        end
      else None
  end.
Proof.
  unfold accepted, verdict, conclusion, serialized. intros Haccepted.
  destruct (validation env cls args) as [errors|]; [|discriminate].
  apply negb_true_iff in Haccepted. rewrite Haccepted.
  destruct (execution env cls info_user data) as [error_messages|exc]; [|reflexivity].
  destruct (truthy error_messages); [|reflexivity].
  now destruct (dumps error_messages).
Qed.

(** X9. In synchronous mode, once validation has passed, the handler is
    called once, with the acting user and the data as submitted, and its
    outcome alone decides the record: a falsy result gives [SUCCESS] without
    a detail, a truthy one gives [FAILED] with [json.dumps] of the result
    (or with the [TypeError] of [json.dumps] when the result cannot be
    written), an exception gives [FAILED] with that exception.  Nothing is
    queued. *)
Theorem inline_execution_decides_the_status (env : environment) (cls : MutationClass)
    (info_user : option principal) (data : pydict) (w w0 : world)
    (mutation_log_id : nat) :
  receive_mutation env info_user data w = (Return mutation_log_id, w0) ->
  async_mutations env = false ->
  accepted env cls (signal_args_of cls mutation_log_id info_user data) = true ->
  let w' := snd (mutate_and_get_payload env cls info_user data w) in
  task_queue w' = task_queue w /\
  handler_arguments (new_events w w') = [(info_user, data)] /\
  exists m,
    mutation_logs w' !! mutation_log_id = Some m /\
    match async_mutate cls info_user data with
    | Raise exc => status m = FAILED /\ error m = Some (Fault exc)
    | Return error_messages =>
        if truthy error_messages then
          status m = FAILED /\
          match dumps error_messages with
          | Return doc => error m = Some (Text (doc_text doc))
          | Raise exc => error m = Some (Fault exc)
          end
        else status m = SUCCESS /\ error m = None
    end.
Proof.
  intros Hreceive Hsync Haccepted w'.
  split; [|split; [exact (inline_handler_arguments _ _ _ _ _ _ _ Hreceive Hsync Haccepted)|]];
    subst w';
    destruct (receive_mutation_returns _ _ _ _ _ _ Hreceive)
      as (content & Hcontent & _ & Hid & Hlogs & Hqueue & _);
    subst mutation_log_id;
    rewrite (mutate_run _ cls _ _ _ _ _ _ Hreceive Hcontent).
  - cbn [snd settled task_queue]. unfold submission_messages.
    now rewrite Haccepted, Hsync, Hqueue, app_nil_r.
  - cbn [snd settled mutation_logs]. eexists. split.
    { rewrite Hlogs. apply list_lookup_insert_eq. rewrite length_app; simpl; lia. }
    rewrite (accepted_verdict _ _ _ _ _ Haccepted). unfold execution. rewrite Hsync.
    destruct (async_mutate cls info_user data) as [error_messages|exc]; [|now split].
    destruct (truthy error_messages); [|now split].
    now destruct (dumps error_messages).
Qed.

Lemma inline_execution_decides_the_status_witness :
  let env := process_with false [audit_log] [] in
  let someone := Some (Authenticated alice) in
  let w0 := {| mutation_logs := [fresh_record (JDict [("amount", JInt 100)]) someone payload];
               task_queue := []; active_language := Some "en"; trace := [] |} in
  let w' := snd (mutate_and_get_payload env RefusedCard someone payload empty_world) in
  receive_mutation env someone payload empty_world = (Return 0%nat, w0) /\
  async_mutations env = false /\
  accepted env RefusedCard (signal_args_of RefusedCard 0 someone payload) = true /\
  task_queue w' = [] /\
  handler_arguments (new_events empty_world w') = [(someone, payload)] /\
  exists m, mutation_logs w' !! 0%nat = Some m /\ status m = FAILED /\
            error m = Some (Text (doc_text (JList [JStr "card refused"]))).
Proof.
  intros env someone w0 w'.
  assert (receive_mutation env someone payload empty_world = (Return 0%nat, w0))
    as Hreceive by reflexivity.
  assert (async_mutations env = false) as Hsync by reflexivity.
  assert (accepted env RefusedCard (signal_args_of RefusedCard 0 someone payload) = true)
    as Haccepted by reflexivity.
  destruct (inline_execution_decides_the_status env RefusedCard someone payload
              empty_world w0 0 Hreceive Hsync Haccepted)
    as (Hqueue & Hcalls & m & Hm & Hstatus).
  do 3 (split; [reflexivity|]).
  split; [exact Hqueue|]. split; [exact Hcalls|].
  exists m. split; [exact Hm|]. exact Hstatus.
Defined.

(** X10. In asynchronous mode, when validation has passed and the broker
    refuses the message, [mutate_and_get_payload] still returns the id: the
    record is [FAILED] with the broker's exception as its detail, nothing is
    on the queue and the handler was not called. *)
Theorem broker_failure_fails_the_record (env : environment) (cls : MutationClass)
    (info_user : option principal) (data : pydict) (w w0 : world)
    (mutation_log_id : nat) (exc : exn) :
  receive_mutation env info_user data w = (Return mutation_log_id, w0) ->
  async_mutations env = true ->
  accepted env cls (signal_args_of cls mutation_log_id info_user data) = true ->
  delay_fault env = Some exc ->
  let run := mutate_and_get_payload env cls info_user data w in
  fst run = Return mutation_log_id /\
  task_queue (snd run) = task_queue w /\
  handler_arguments (new_events w (snd run)) = [] /\
  exists m,
    mutation_logs (snd run) !! mutation_log_id = Some m /\
    status m = FAILED /\ error m = Some (Fault exc).
Proof.
  intros Hreceive Hasync Haccepted Hdelay run. subst run.
  destruct (receive_mutation_returns _ _ _ _ _ _ Hreceive)
    as (content & Hcontent & _ & Hid & Hlogs & Hqueue & Htrace).
  subst mutation_log_id.
  rewrite (mutate_run _ cls _ _ _ _ _ _ Hreceive Hcontent).
  unfold new_events. cbn [fst snd settled task_queue mutation_logs trace].
  split; [reflexivity|]. split; [|split].
  - unfold submission_messages. now rewrite Haccepted, Hasync, Hdelay, Hqueue, app_nil_r.
  - rewrite Htrace, drop_app_length. unfold submission_events.
    rewrite Haccepted, Hasync. simpl.
    now rewrite app_nil_r, handler_arguments_notifications.
  - eexists. split.
    { rewrite Hlogs. apply list_lookup_insert_eq. rewrite length_app; simpl; lia. }
    rewrite (accepted_verdict _ _ _ _ _ Haccepted). unfold execution.
    rewrite Hasync, Hdelay. now split.
Qed.

Lemma broker_failure_fails_the_record_witness :
  let env := {| async_mutations := true; signal_mutation := [audit_log];
                signal_mutation_module := [("billing", [])];
                installed_schemas := [("billing", billing_schema)];
                create_fault := None;
                delay_fault := Some (Exn "OperationalError" "broker unreachable");
                activate_fault := fun _ => None |} in
  let someone := Some (Authenticated alice) in
  let w0 := {| mutation_logs := [fresh_record (JDict [("amount", JInt 100)]) someone payload];
               task_queue := []; active_language := Some "en"; trace := [] |} in
  let run := mutate_and_get_payload env ChargeCard someone payload empty_world in
  receive_mutation env someone payload empty_world = (Return 0%nat, w0) /\
  async_mutations env = true /\
  accepted env ChargeCard (signal_args_of ChargeCard 0 someone payload) = true /\
  delay_fault env = Some (Exn "OperationalError" "broker unreachable") /\
  fst run = Return 0%nat /\
  task_queue (snd run) = [] /\
  exists m, mutation_logs (snd run) !! 0%nat = Some m /\ status m = FAILED /\
            error m = Some (Fault (Exn "OperationalError" "broker unreachable")).
Proof.
  intros env someone w0 run.
  assert (receive_mutation env someone payload empty_world = (Return 0%nat, w0))
    as Hreceive by reflexivity.
  destruct (broker_failure_fails_the_record env ChargeCard someone payload empty_world w0 0
              (Exn "OperationalError" "broker unreachable")
              Hreceive eq_refl eq_refl eq_refl)
    as (Hreturn & Hqueue & _ & Hrecord).
  do 4 (split; [reflexivity|]).
  split; [exact Hreturn|]. split; [exact Hqueue|exact Hrecord].
Defined.

(** X11. When the class names a module that has no entry in
    [signal_mutation_module], the lookup raises [KeyError] inside the [try]
    block, after the subscribers of the global signal have all been called:
    the record is [FAILED] with that [KeyError] whatever the subscribers
    answered, the handler is not called and nothing is queued. *)
Theorem module_without_signal_fails_the_record (env : environment) (cls : MutationClass)
    (info_user : option principal) (data : pydict) (w w0 : world)
    (mutation_log_id : nat) (results : list (string * list pyval)) (exc : exn) :
  receive_mutation env info_user data w = (Return mutation_log_id, w0) ->
  let args := signal_args_of cls mutation_log_id info_user data in
  responses (signal_mutation env) args = Return results ->
  signal_of_module (signal_mutation_module env) (_mutation_module cls) = Raise exc ->
  let run := mutate_and_get_payload env cls info_user data w in
  exc = Exn "KeyError" ("'" +:+ _mutation_module cls +:+ "'") /\
  fst run = Return mutation_log_id /\
  new_events w (snd run) = map (notification args) (signal_mutation env) /\
  handler_arguments (new_events w (snd run)) = [] /\
  task_queue (snd run) = task_queue w /\
  exists m,
    mutation_logs (snd run) !! mutation_log_id = Some m /\
    status m = FAILED /\ error m = Some (Fault exc).
Proof.
  intros Hreceive args Hglobal Hmodule run. subst run.
  destruct (receive_mutation_returns _ _ _ _ _ _ Hreceive)
    as (content & Hcontent & _ & Hid & Hlogs & Hqueue & Htrace).
  subst mutation_log_id.
  rewrite (mutate_run _ cls _ _ _ _ _ _ Hreceive Hcontent).
  unfold new_events. cbn [fst snd settled task_queue mutation_logs trace].
  fold args.
  assert (validation env cls args = Raise exc) as Hvalidation
    by (unfold validation; now rewrite Hglobal, Hmodule).
  assert (accepted env cls args = false) as Haccepted
    by (unfold accepted; now rewrite Hvalidation).
  assert (submission_events env cls info_user data args =
          map (notification args) (signal_mutation env)) as Hevents.
  { unfold submission_events, subscribers. rewrite Haccepted, Hmodule. simpl.
    rewrite !app_nil_r.
    replace (signal_mutation env) with (signal_mutation env ++ []) at 1
      by apply app_nil_r.
    rewrite (called_app_return _ _ _ [] Hglobal). simpl. now rewrite app_nil_r. }
  split; [exact (signal_of_module_raises _ _ _ Hmodule)|].
  split; [reflexivity|].
  rewrite Htrace, drop_app_length, Hevents.
  split; [reflexivity|]. split; [apply handler_arguments_notifications|]. split.
  - unfold submission_messages. now rewrite Haccepted, Hqueue, app_nil_r.
  - eexists. split.
    { rewrite Hlogs. apply list_lookup_insert_eq. rewrite length_app; simpl; lia. }
    unfold verdict, conclusion. rewrite Hvalidation. now split.
Qed.

Lemma module_without_signal_fails_the_record_witness :
  let env := {| async_mutations := false; signal_mutation := [funds_check];
                signal_mutation_module := [("core", [])];
                installed_schemas := [("billing", billing_schema)];
                create_fault := None; delay_fault := None;
                activate_fault := fun _ => None |} in
  let someone := Some (Authenticated alice) in
  let w0 := {| mutation_logs := [fresh_record (JDict [("amount", JInt 100)]) someone payload];
               task_queue := []; active_language := Some "en"; trace := [] |} in
  let args := signal_args_of ChargeCard 0 someone payload in
  let run := mutate_and_get_payload env ChargeCard someone payload empty_world in
  receive_mutation env someone payload empty_world = (Return 0%nat, w0) /\
  responses (signal_mutation env) args =
    Return [("funds_check", [PStr "insufficient funds"])] /\
  signal_of_module (signal_mutation_module env) "billing" =
    Raise (Exn "KeyError" "'billing'") /\
  new_events empty_world (snd run) = map (notification args) [funds_check] /\
  exists m, mutation_logs (snd run) !! 0%nat = Some m /\ status m = FAILED /\
            error m = Some (Fault (Exn "KeyError" "'billing'")).
Proof.
  intros env someone w0 args run.
  assert (receive_mutation env someone payload empty_world = (Return 0%nat, w0))
    as Hreceive by reflexivity.
  destruct (module_without_signal_fails_the_record env ChargeCard someone payload
              empty_world w0 0 [("funds_check", [PStr "insufficient funds"])]
              (Exn "KeyError" "'billing'") Hreceive eq_refl eq_refl)
    as (_ & _ & Hevents & _ & _ & Hrecord).
  do 3 (split; [reflexivity|]).
  split; [exact Hevents|exact Hrecord].
Defined.
(** ** What a submission and a run leave alone *)

(** X12. A submission calls the handler at most once and queues at most
    one message, and never does both: in asynchronous mode the coordinator
    does not call the handler, in synchronous mode it queues nothing.  A
    queued message names the new record and the module and class of the
    mutation; a call of the handler has the acting user and the data as
    submitted. *)
Theorem submission_executes_or_queues_at_most_once (env : environment)
    (cls : MutationClass) (info_user : option principal) (data : pydict) (w : world) :
  let w' := snd (mutate_and_get_payload env cls info_user data w) in
  exists (evs : list event) (messages : list task_message),
    trace w' = trace w ++ evs /\
    task_queue w' = task_queue w ++ messages /\
    (handler_arguments evs = [] \/ handler_arguments evs = [(info_user, data)]) /\
    (messages = [] \/
     messages = [{| task_mutation_id := length (mutation_logs w);
                    task_module := _mutation_module cls;
                    task_class_name := _mutation_class cls |}]) /\
    (handler_arguments evs = [] \/ messages = []) /\
    (async_mutations env = true -> handler_arguments evs = []) /\
    (async_mutations env = false -> messages = []).
Proof.
  intros w'. subst w'.
  destruct (receive_mutation env info_user data w) as [[id|e] w0] eqn:Hreceive.
  - destruct (receive_mutation_returns _ _ _ _ _ _ Hreceive)
      as (content & Hcontent & _ & Hid & _ & Hqueue & Htrace).
    subst id.
    rewrite (mutate_run _ cls _ _ _ _ _ _ Hreceive Hcontent).
    cbn [snd settled task_queue trace]. rewrite Hqueue, Htrace.
    eexists. eexists. split; [reflexivity|]. split; [reflexivity|].
    unfold submission_events, submission_messages.
    rewrite handler_arguments_app, handler_arguments_notifications.
    destruct (accepted env cls _), (async_mutations env), (delay_fault env);
      simpl; repeat split; auto; discriminate.
  - rewrite (mutate_raises _ cls _ _ _ _ _ Hreceive). cbn [snd].
    destruct (receive_mutation_raises _ _ _ _ _ _ Hreceive) as (Hqueue & Htrace & _).
    exists [], []. rewrite Hqueue, Htrace, !app_nil_r. simpl. repeat split; auto.
Qed.

Lemma perform_keeps_columns op w i r :
  mutation_logs w !! i = Some r ->
  exists r', mutation_logs (perform op w) !! i = Some r' /\
             submitted_columns r' = submitted_columns r.
Proof.
  intros Hr. destruct op as [env cls info_user data|env mutation_id module class_name].
  - destruct (submit_logs env cls info_user data w) as [H|[content [H|H]]];
      rewrite H; exists r; (split; [|reflexivity]);
      try (apply lookup_app_l_Some); exact Hr.
  - pose proof (run_logs env mutation_id module class_name w) as H.
    destruct (mutation_logs w !! mutation_id) as [mutation|] eqn:Hm.
    + rewrite H. destruct (decide (mutation_id = i)) as [->|Hne].
      * eexists. split.
        { apply list_lookup_insert_eq. now apply lookup_lt_Some in Hr. }
        rewrite Hr in Hm. now injection Hm as <-.
      * exists r. split; [|reflexivity]. now rewrite list_lookup_insert_ne.
    + rewrite H. exists r. split; [exact Hr|reflexivity].
Qed.

(** X13. The columns written when a record is created are never written
    again: over every sequence of submissions and task runs (retries and
    runs on any id included), a record keeps its id, its payload
    [json_content], its user and the client's id and label; only the status
    and the error detail change. *)
Theorem submitted_columns_are_written_once (ops : list operation) (w : world)
    (i : nat) (r : MutationLog) :
  mutation_logs w !! i = Some r ->
  exists r',
    mutation_logs (perform_all ops w) !! i = Some r' /\
    json_content r' = json_content r /\
    user r' = user r /\
    client_mutation_id r' = client_mutation_id r /\
    client_mutation_label r' = client_mutation_label r.
Proof.
  intros Hr.
  assert (exists r', mutation_logs (perform_all ops w) !! i = Some r' /\
                     submitted_columns r' = submitted_columns r) as (r' & Hr' & Hcolumns).
  { revert w r Hr. induction ops as [|op ops IH]; intros w r Hr; [now exists r|].
    destruct (perform_keeps_columns op w i r Hr) as (r1 & Hr1 & H1).
    destruct (IH (perform op w) r1 Hr1) as (r' & Hr' & H').
    exists r'. split; [exact Hr'|]. now rewrite H', H1. }
  exists r'. split; [exact Hr'|].
  unfold submitted_columns in Hcolumns. now injection Hcolumns as -> -> -> ->.
Qed.

Lemma submitted_columns_are_written_once_witness :
  let env := process_with true [] [] in
  let someone := Some (Authenticated alice) in
  let submitted := perform (Submit env SlowCard someone payload) empty_world in
  let ops := [Run env 0 "billing" "SlowCard";
              Submit env ChargeCard someone [("amount", PInt 5)];
              Run env 0 "billing" "ChargeCard"] in
  (exists r, mutation_logs submitted !! 0%nat = Some r /\
             json_content r = JDict [("amount", JInt 100)]) /\
  (exists r', mutation_logs (perform_all ops submitted) !! 0%nat = Some r' /\
              json_content r' = JDict [("amount", JInt 100)] /\
              user r' = Some alice).
Proof.
  intros env someone submitted ops.
  assert (mutation_logs submitted !! 0%nat =
          Some (marked None (fresh_record (JDict [("amount", JInt 100)]) someone payload)))
    as Hr by reflexivity.
  split; [eexists; split; [exact Hr|reflexivity]|].
  destruct (submitted_columns_are_written_once ops submitted 0 _ Hr)
    as (r' & Hr' & Hcontent & Huser & _).
  exists r'. split; [exact Hr'|]. split; [exact Hcontent|exact Huser].
Defined.

(** X14. A run of the task leaves the queue and the length of the log as
    they are and changes no record but the one with its id; when that record
    exists it ends [SUCCESS] or [FAILED]; the task notifies no validation
    subscriber and calls the handler at most once. *)
Theorem task_touches_only_its_record (env : environment) (mutation_id : nat)
    (module class_name : string) (w : world) :
  let w' := snd (openimis_mutation_async env mutation_id module class_name w) in
  task_queue w' = task_queue w /\
  length (mutation_logs w') = length (mutation_logs w) /\
  (forall j, j <> mutation_id -> mutation_logs w' !! j = mutation_logs w !! j) /\
  match mutation_logs w !! mutation_id with
  | Some r =>
      exists r', mutation_logs w' !! mutation_id = Some r' /\ terminal (status r') = true
  | None => mutation_logs w' = mutation_logs w
  end /\
  Forall (fun ev => is_notification ev = false) (new_events w w') /\
  (length (handler_arguments (new_events w w')) <= 1)%nat.
Proof.
  intros w'. subst w'. unfold new_events.
  destruct (mutation_logs w !! mutation_id) as [mutation|] eqn:Hm.
  - rewrite (task_run _ _ _ _ _ _ Hm). cbn [snd task_queue mutation_logs trace].
    split; [reflexivity|]. split; [apply length_insert|].
    split; [intros j Hj; now apply list_lookup_insert_ne|]. split.
    { eexists. split.
      - apply list_lookup_insert_eq. now apply lookup_lt_Some in Hm.
      - now destruct (task_verdict env mutation module class_name). }
    rewrite drop_app_length. unfold task_call.
    destruct (task_prepared env mutation module class_name) as [[mutation_class data]|e];
      destruct (task_result env mutation module class_name);
      simpl; split; repeat constructor.
  - rewrite (task_absent _ _ _ _ _ Hm). cbn [snd add_events task_queue mutation_logs trace].
    rewrite drop_app_length. simpl. repeat split; auto.
Qed.
(** ** The two execution modes *)

(** X15. For a submission that passes validation, with a payload made of
    native values, a broker and translations that work, and a class that
    the task finds under its module and name, the two execution modes agree:
    the task calls the handler with the arguments the synchronous
    coordinator calls it with, and the record reaches the same final status,
    [SUCCESS] when the handler returns a falsy value and [FAILED] when it
    returns a truthy one or raises.  (The detail differs: the coordinator
    stores [json.dumps] of the result or the exception, the task the result
    as it is or [str(exc)].) *)
Theorem both_modes_reach_the_same_status (env : environment) (cls : MutationClass)
    (info_user : option principal) (data : pydict) (w w0 : world)
    (mutation_log_id : nat) :
  receive_mutation env info_user data w = (Return mutation_log_id, w0) ->
  accepted env cls (signal_args_of cls mutation_log_id info_user data) = true ->
  delay_fault env = None ->
  resolve env (_mutation_module cls) (_mutation_class cls) = Return cls ->
  (forall lang, activate_fault env lang = None) ->
  native (PDict data) = true ->
  let inline := snd (mutate_and_get_payload (with_mode false env) cls info_user data w) in
  let queued := snd (mutate_and_get_payload (with_mode true env) cls info_user data w) in
  let worked :=
    snd (openimis_mutation_async (with_mode true env) mutation_log_id
           (_mutation_module cls) (_mutation_class cls) queued) in
  let final :=
    match async_mutate cls info_user data with
    | Return error_messages => if truthy error_messages then FAILED else SUCCESS
    | Raise _ => FAILED
    end in
  status <$> mutation_logs inline !! mutation_log_id = Some final /\
  status <$> mutation_logs worked !! mutation_log_id = Some final /\
  handler_arguments (new_events queued worked) = handler_arguments (new_events w inline).
Proof.
  intros Hreceive Haccepted Hdelay Hresolve Hactivate Hnative inline queued worked final.
  destruct (receive_mutation_returns _ _ _ _ _ _ Hreceive)
    as (content & Hcontent & _ & Hid & Hlogs & Hqueue & Htrace).
  destruct (native_round_trip OpenIMISJSONEncoder_default _ Hnative) as (doc & Hdoc & Hloads).
  unfold dumps_openimis in Hcontent. rewrite Hcontent in Hdoc. injection Hdoc as <-.
  assert (Hinline : mutation_logs inline !! mutation_log_id =
    Some (marked (verdict (with_mode false env) cls info_user data
                    (signal_args_of cls mutation_log_id info_user data))
                 (fresh_record content info_user data))).
  { subst inline.
    rewrite (mutate_run (with_mode false env) cls _ _ _ _ _ _ Hreceive Hcontent).
    cbn [snd settled mutation_logs]. rewrite Hlogs, Hid.
    apply list_lookup_insert_eq. rewrite length_app; simpl; lia. }
  set (m := marked None (fresh_record content info_user data)).
  assert (Hverdict : verdict (with_mode true env) cls info_user data
                       (signal_args_of cls mutation_log_id info_user data) = None).
  { rewrite (accepted_verdict (with_mode true env) _ _ _ _ Haccepted).
    unfold execution. cbn [with_mode async_mutations delay_fault]. now rewrite Hdelay. }
  assert (Hqueued : queued =
    settled w0 mutation_log_id m
      (submission_messages (with_mode true env) cls mutation_log_id
         (signal_args_of cls mutation_log_id info_user data))
      (submission_events (with_mode true env) cls info_user data
         (signal_args_of cls mutation_log_id info_user data))).
  { subst queued.
    rewrite (mutate_run (with_mode true env) cls _ _ _ _ _ _ Hreceive Hcontent).
    cbn [snd]. now rewrite Hverdict. }
  assert (Hm : mutation_logs queued !! mutation_log_id = Some m).
  { rewrite Hqueued. cbn [settled mutation_logs]. rewrite Hlogs, Hid.
    apply list_lookup_insert_eq. rewrite length_app; simpl; lia. }
  assert (Hprepared : task_prepared (with_mode true env) m (_mutation_module cls)
                        (_mutation_class cls) = Return (cls, data)).
  { unfold task_prepared.
    change (resolve (with_mode true env)) with (resolve env). rewrite Hresolve.
    cbn [with_mode activate_fault].
    assert (match task_language m with
            | Some lang => activate_fault env lang
            | None => None
            end = None) as -> by (destruct (task_language m); auto).
    replace (json_content m) with content by reflexivity.
    now rewrite Hloads. }
  assert (Hresult : task_result (with_mode true env) m (_mutation_module cls)
                      (_mutation_class cls) = async_mutate cls info_user data).
  { unfold task_result. rewrite Hprepared.
    replace (user m) with (submitter info_user) by reflexivity.
    now rewrite (receive_mutation_not_anonymous _ _ _ _ _ _ Hreceive). }
  split; [|split].
  - rewrite Hinline. cbn [fmap option_fmap option_map marked status]. f_equal.
    rewrite (accepted_verdict (with_mode false env) _ _ _ _ Haccepted).
    unfold execution. cbn [with_mode async_mutations]. subst final.
    destruct (async_mutate cls info_user data) as [error_messages|exc]; [|reflexivity].
    destruct (truthy error_messages); [|reflexivity].
    now destruct (dumps error_messages).
  - subst worked. rewrite (task_run _ _ _ _ _ _ Hm). cbn [snd mutation_logs].
    rewrite list_lookup_insert_eq by (now apply lookup_lt_Some in Hm).
    cbn [fmap option_fmap option_map marked status]. f_equal.
    unfold task_verdict. rewrite Hresult. subst final.
    destruct (async_mutate cls info_user data) as [error_messages|exc]; [|reflexivity].
    now destruct (truthy error_messages).
  - subst inline.
    rewrite (inline_handler_arguments (with_mode false env) cls _ _ _ _ _
               Hreceive eq_refl Haccepted).
    subst worked. unfold new_events. rewrite (task_run _ _ _ _ _ _ Hm).
    cbn [snd trace]. rewrite drop_app_length, handler_arguments_app.
    unfold task_call. rewrite Hprepared, Hresult.
    replace (user m) with (submitter info_user) by reflexivity.
    rewrite (receive_mutation_not_anonymous _ _ _ _ _ _ Hreceive). simpl.
    now destruct (async_mutate cls info_user data).
Qed.

Lemma both_modes_reach_the_same_status_witness :
  let env := process_with true [audit_log] [] in
  let someone := Some (Authenticated alice) in
  let w0 := {| mutation_logs := [fresh_record (JDict [("amount", JInt 100)]) someone payload];
               task_queue := []; active_language := Some "en"; trace := [] |} in
  let inline :=
    snd (mutate_and_get_payload (with_mode false env) RefusedCard someone payload
           empty_world) in
  let queued :=
    snd (mutate_and_get_payload (with_mode true env) RefusedCard someone payload
           empty_world) in
  let worked :=
    snd (openimis_mutation_async (with_mode true env) 0 "billing" "RefusedCard" queued) in
  receive_mutation env someone payload empty_world = (Return 0%nat, w0) /\
  accepted env RefusedCard (signal_args_of RefusedCard 0 someone payload) = true /\
  delay_fault env = None /\
  resolve env "billing" "RefusedCard" = Return RefusedCard /\
  (forall lang, activate_fault env lang = None) /\
  native (PDict payload) = true /\
  status <$> mutation_logs inline !! 0%nat = Some FAILED /\
  status <$> mutation_logs worked !! 0%nat = Some FAILED.
Proof.
  intros env someone w0 inline queued worked.
  assert (receive_mutation env someone payload empty_world = (Return 0%nat, w0))
    as Hreceive by reflexivity.
  destruct (both_modes_reach_the_same_status env RefusedCard someone payload empty_world
              w0 0 Hreceive eq_refl eq_refl eq_refl (fun _ => eq_refl) eq_refl)
    as (Hinline & Hworked & _).
  do 4 (split; [reflexivity|]).
  split; [intros lang; reflexivity|]. split; [reflexivity|].
  split; [exact Hinline|exact Hworked].
Defined.
(** ** Module configurations *)

Lemma length_re_split_non_digit (s : string) :
  length (re_split_non_digit s) = S (count_non_digit s).
Proof.
  induction s as [|c rest IH]; simpl; [reflexivity|].
  destruct (is_digit c); simpl; [|now rewrite IH].
  destruct (re_split_non_digit rest); simpl in *; [discriminate IH|exact IH].
Qed.

Lemma int_each_length (d : list string) (numbers : list Z) :
  int_each d = Return numbers -> length numbers = length d.
Proof.
  revert numbers. induction d as [|x d IH]; simpl; intros numbers H.
  - now injection H as <-.
  - destruct (int (String "0" x)); [|discriminate H].
    destruct (int_each d) as [ns|]; [|discriminate H].
    injection H as <-. simpl. now rewrite (IH ns).
Qed.

Lemma int_each_raises (d : list string) (e : exn) :
  int_each d = Raise e -> exn_type e = "ValueError".
Proof.
  induction d as [|x d IH]; simpl; [discriminate|].
  unfold int at 1.
  destruct (int_max_str_digits <? String.length (String "0" x))%nat.
  - now intros [= <-].
  - destruct (int_each d); [discriminate|]. intros [= <-]. now apply IH.
Qed.

Lemma py_datetime_returns (args : list Z) (t : datetime) :
  py_datetime args = Return t ->
  (3 <= length args)%nat /\ valid_datetime t = true /\ microsecond t = 0.
Proof.
  unfold py_datetime.
  destruct (existsb _ args); [discriminate|].
  destruct args as [|y [|m [|d time]]]; try discriminate.
  cbv zeta.
  destruct (between 1 y 9999) eqn:Hy; [|discriminate].
  destruct (between 1 m 12) eqn:Hm; [|discriminate].
  destruct (between 1 d (days_in_month y m)) eqn:Hd; [|discriminate].
  destruct (between 0 (nth 0 time 0) 23) eqn:Hh; [|discriminate].
  destruct (between 0 (nth 1 time 0) 59) eqn:Hmi; [|discriminate].
  destruct (between 0 (nth 2 time 0) 59) eqn:Hs; [|discriminate].
  cbn [negb]. intros [= <-]. unfold valid_datetime. cbn.
  rewrite Hy, Hm, Hd, Hh, Hmi, Hs. split; [lia|]. now split.
Qed.

Lemma py_datetime_raises (args : list Z) (e : exn) :
  py_datetime args = Raise e ->
  exn_type e = "TypeError" \/ exn_type e = "ValueError" \/ exn_type e = "OverflowError".
Proof.
  unfold py_datetime.
  destruct (existsb _ args); [intros [= <-]; auto|].
  destruct args as [|y [|m [|d time]]]; try (intros [= <-]; auto).
  cbv zeta.
  repeat match goal with
         | |- context [if ?b then _ else _] => destruct b
         end; intros [= <-]; auto.
Qed.

(** X16. Whatever the text of [validity], [resolve_module_configurations]
    filters on a real instant of the calendar or raises: a text is accepted
    only when it has at least three runs of digits (so at least two other
    characters) and the first six runs name a year from 1 to 9999, a month,
    a day of that month and a time of day; the microseconds are then zero.
    It raises [TypeError] when a date field is missing, [ValueError] when a
    field is out of range (or has too many digits for [int]), and
    [OverflowError] when a number does not fit a C [int]. *)
Theorem accepted_validity_is_a_calendar_instant (text : string) :
  match validity_of_text text with
  | Return t =>
      valid_datetime t = true /\ microsecond t = 0 /\ (2 <= count_non_digit text)%nat
  | Raise e =>
      exn_type e = "TypeError" \/ exn_type e = "ValueError" \/
      exn_type e = "OverflowError"
  end.
Proof.
  unfold validity_of_text.
  destruct (int_each (re_split_non_digit text)) as [numbers|e] eqn:Hnumbers.
  - destruct (py_datetime (take 6 numbers)) as [t|e] eqn:Ht.
    + destruct (py_datetime_returns _ _ Ht) as (Hlength & Hvalid & Hmicro).
      split; [exact Hvalid|]. split; [exact Hmicro|].
      apply int_each_length in Hnumbers.
      rewrite length_re_split_non_digit in Hnumbers.
      rewrite length_take in Hlength. lia.
    + exact (py_datetime_raises _ _ Ht).
  - right. left. exact (int_each_raises _ _ Hnumbers).
Qed.

(** X17. [resolve_module_configurations] returns exactly the rows of the
    table that are exposed, that are not disabled or were disabled until an
    instant strictly before the one asked for (the current time when no
    [validity] is given), and that are of the layer asked for when one is
    given: a configuration that is not exposed is never returned, whatever
    the arguments. *)
Theorem unexposed_configurations_are_never_returned (now : datetime)
    (table : list ModuleConfiguration) (validity wanted : option string)
    (returned : list ModuleConfiguration) :
  resolve_module_configurations now table validity wanted = Return returned ->
  exists instant,
    match validity with
    | None => instant = now
    | Some text => validity_of_text text = Return instant
    end /\
    forall r,
      In r returned <->
      In r table /\ is_exposed r = true /\
      match is_disabled_until r with
      | None => True
      | Some until => datetime_ltb until instant = true
      end /\
      match wanted with
      | None => True
      | Some l => layer r = l
      end.
Proof.
  unfold resolve_module_configurations. intros H.
  assert (exists instant,
            match validity with
            | None => Return now
            | Some text => validity_of_text text
            end = Return instant) as (instant & Hinstant).
  { destruct validity as [text|]; [|now exists now].
    destruct (validity_of_text text) as [t|]; [now exists t|discriminate H]. }
  rewrite Hinstant in H. injection H as <-.
  exists instant. split.
  { destruct validity; [exact Hinstant|now injection Hinstant as <-]. }
  intros r. unfold objects_filter. rewrite List.filter_In.
  unfold Q_or, Q_is_disabled_until_None, Q_is_disabled_until_lt, Q_is_exposed, Q_layer.
  destruct wanted as [l|]; cbn [app forallb];
    rewrite ?andb_true_iff, ?andb_true_r, Bool.eqb_true_iff, ?String.eqb_eq;
    destruct (is_disabled_until r) as [until|]; cbn [orb]; tauto.
Qed.

Lemma unexposed_configurations_are_never_returned_witness :
  let january := {| year := 2020; month := 1; day := 1; hour := 0; minute := 0;
                    second := 0; microsecond := 0 |} in
  let public := {| is_disabled_until := None; is_exposed := true; layer := "fe" |} in
  let secret := {| is_disabled_until := None; is_exposed := false; layer := "fe" |} in
  let later := {| is_disabled_until := Some january; is_exposed := true; layer := "fe" |} in
  let backend := {| is_disabled_until := None; is_exposed := true; layer := "be" |} in
  let table := [public; secret; later; backend] in
  resolve_module_configurations january table (Some "2020-01-01") (Some "fe") =
    Return [public] /\
  (exists instant,
     validity_of_text "2020-01-01" = Return instant /\
     forall r, In r [public] -> In r table /\ is_exposed r = true).
Proof.
  intros january public secret later backend table.
  assert (resolve_module_configurations january table (Some "2020-01-01") (Some "fe") =
          Return [public]) as Hrun by reflexivity.
  split; [exact Hrun|].
  destruct (unexposed_configurations_are_never_returned _ _ _ _ _ Hrun)
    as (instant & Hinstant & Hrows).
  exists instant. split; [exact Hinstant|].
  intros r Hr. apply Hrows in Hr as (Htable & Hexposed & _). now split.
Defined.
Lemma is_digit_digit_char (n : Z) : is_digit (digit_char n) = true.
Proof.
  unfold is_digit, digit_char.
  pose proof (Z.mod_pos_bound n 10 eq_refl) as Hmod.
  rewrite N_ascii_embedding by lia.
  apply andb_true_iff. split; apply N.leb_le; lia.
Qed.

Lemma digit_value_digit_char (n : Z) : digit_value (digit_char n) = n mod 10.
Proof.
  unfold digit_value, digit_char.
  pose proof (Z.mod_pos_bound n 10 eq_refl) as Hmod.
  rewrite N_ascii_embedding by lia. lia.
Qed.

Lemma split_digit (d : ascii) (s : string) :
  is_digit d = true ->
  re_split_non_digit (String d s) =
  match re_split_non_digit s with
  | run :: runs => String d run :: runs
  | [] => [String d EmptyString]
  end.
Proof. intros H. cbn [re_split_non_digit]. now rewrite H. Qed.

Lemma split_separator (c : ascii) (s : string) :
  is_digit c = false ->
  re_split_non_digit (String c s) = EmptyString :: re_split_non_digit s.
Proof. intros H. cbn [re_split_non_digit]. now rewrite H. Qed.

Lemma int_two_digits (n : Z) :
  0 <= n <= 99 -> int (String "0" (two_digits n)) = Return n.
Proof.
  intros Hn. unfold int, two_digits.
  change (int_max_str_digits <? _)%nat with false. cbn [int_digits].
  rewrite !digit_value_digit_char. change (digit_value "0") with 0.
  f_equal. Z.div_mod_to_equations. lia.
Qed.

Lemma int_four_digits (n : Z) :
  0 <= n <= 9999 -> int (String "0" (four_digits n)) = Return n.
Proof.
  intros Hn. unfold int, four_digits, two_digits.
  change (int_max_str_digits <? _)%nat with false. cbn [int_digits].
  rewrite !digit_value_digit_char. change (digit_value "0") with 0.
  f_equal. Z.div_mod_to_equations. lia.
Qed.
Lemma runs_are_short (s : string) :
  List.Forall (fun run => (String.length run <= String.length s)%nat)
    (re_split_non_digit s).
Proof.
  induction s as [|c rest IH]; simpl; [constructor; [simpl; lia|constructor]|].
  destruct (is_digit c).
  - destruct (re_split_non_digit rest) as [|run runs];
      [constructor; [simpl; lia|constructor]|].
    inversion IH as [|? ? Hrun Hruns]; subst. constructor; [simpl; lia|].
    eapply List.Forall_impl; [|exact Hruns]. simpl. intros; lia.
  - constructor; [simpl; lia|].
    eapply List.Forall_impl; [|exact IH]. simpl. intros; lia.
Qed.

Lemma int_each_short (d : list string) :
  List.Forall (fun run => (String.length run < int_max_str_digits)%nat) d ->
  exists numbers, int_each d = Return numbers.
Proof.
  induction 1 as [|x d Hx _ IH]; simpl; [now eexists|].
  unfold int at 1.
  replace (int_max_str_digits <? String.length (String "0" x))%nat with false
    by (symmetry; apply Nat.ltb_ge; simpl; lia).
  destruct IH as (ns & ->). now eexists.
Qed.

Lemma days_in_month_bound (y m : Z) : days_in_month y m <= 31.
Proof.
  unfold days_in_month.
  destruct (m =? 2)%Z; [destruct (is_leap y); lia|].
  destruct ((m =? 4)%Z || (m =? 6)%Z || (m =? 9)%Z || (m =? 11)%Z); lia.
Qed.

Lemma validity_of_isoformat (t : datetime) (suffix : string) :
  valid_datetime t = true ->
  suffix = EmptyString \/
  (exists c rest, suffix = String c rest /\ is_digit c = false /\
                  (String.length rest < int_max_str_digits)%nat) ->
  validity_of_text (isoformat (whole_second t) +:+ suffix) = Return (whole_second t).
Proof.
  intros Hvalid Hsuffix.
  unfold valid_datetime in Hvalid.
  apply andb_true_iff in Hvalid as [Hvalid _].
  apply andb_true_iff in Hvalid as [Hvalid Hs].
  apply andb_true_iff in Hvalid as [Hvalid Hmi].
  apply andb_true_iff in Hvalid as [Hvalid Hh].
  apply andb_true_iff in Hvalid as [Hvalid Hd].
  apply andb_true_iff in Hvalid as [Hy Hm].
  pose proof (days_in_month_bound (year t) (month t)) as Hdays.
  assert (1 <= year t <= 9999 /\ 1 <= month t <= 12 /\ 1 <= day t <= 31 /\
          0 <= hour t <= 23 /\ 0 <= minute t <= 59 /\ 0 <= second t <= 59)
    as (Hy' & Hm' & Hd' & Hh' & Hmi' & Hs').
  { unfold between in Hy, Hm, Hd, Hh, Hmi, Hs.
    rewrite andb_true_iff, !Z.leb_le in Hy, Hm, Hd, Hh, Hmi, Hs. lia. }
  assert (exists more,
            int_each (re_split_non_digit
                        (String (digit_char (second t / 10))
                           (String (digit_char (second t)) suffix))) =
            Return (second t :: more)) as (more & Hseconds).
  {     destruct Hsuffix as [->|(c & rest & -> & Hc & Hrest)].
    - exists []. rewrite !split_digit by apply is_digit_digit_char.
      cbn [re_split_non_digit]. fold (two_digits (second t)). cbn [int_each].
      now rewrite int_two_digits by lia.
    - destruct (int_each_short (re_split_non_digit rest)) as (more & Hmore).
      { eapply List.Forall_impl; [|apply runs_are_short]. simpl. intros; lia. }
      exists more.
      rewrite !split_digit by apply is_digit_digit_char.
      rewrite split_separator by exact Hc. cbv iota.
      fold (two_digits (second t)). cbn [int_each].
      rewrite int_two_digits by lia. now rewrite Hmore. }
  unfold validity_of_text, isoformat, isoformat_date, whole_second.
  cbn [year month day hour minute second microsecond].
  change (0 =? 0)%Z with true. cbv iota.
  unfold four_digits, two_digits. cbv [String.append].
  do 17 first [ rewrite split_digit by apply is_digit_digit_char
              | rewrite split_separator by reflexivity ].
  destruct (re_split_non_digit
              (String (digit_char (second t / 10))
                 (String (digit_char (second t)) suffix))) as [|run runs] eqn:Hruns;
    [discriminate Hseconds|].
  cbv iota.
  fold (two_digits (year t)). fold (four_digits (year t)).
  fold (two_digits (month t)). fold (two_digits (day t)).
  fold (two_digits (hour t)). fold (two_digits (minute t)).
  remember (run :: runs) as seconds_on.
  cbn [int_each]. rewrite Hseconds.
  rewrite int_four_digits, !int_two_digits by lia.
  cbn [take]. unfold py_datetime. cbn [existsb nth].
  rewrite take_0. cbn [existsb].
  rewrite !(proj2 (Z.ltb_ge _ _)) by (unfold INT_MAX; lia).
  now rewrite Hy, Hm, Hd, Hh, Hmi, Hs.
Qed.
Lemma validity_of_isoformat_date (t : datetime) :
  valid_datetime t = true ->
  validity_of_text (isoformat_date t) = Return (midnight t).
Proof.
  intros Hvalid.
  unfold valid_datetime in Hvalid.
  do 4 (apply andb_true_iff in Hvalid as [Hvalid _]).
  apply andb_true_iff in Hvalid as [Hvalid Hd].
  apply andb_true_iff in Hvalid as [Hy Hm].
  pose proof (days_in_month_bound (year t) (month t)) as Hdays.
  assert (1 <= year t <= 9999 /\ 1 <= month t <= 12 /\ 1 <= day t <= 31)
    as (Hy' & Hm' & Hd').
  { unfold between in Hy, Hm, Hd.
    rewrite andb_true_iff, !Z.leb_le in Hy, Hm, Hd. lia. }
  unfold validity_of_text, isoformat_date, midnight.
  unfold four_digits, two_digits. cbv [String.append].
  do 10 first [ rewrite split_digit by apply is_digit_digit_char
              | rewrite split_separator by reflexivity ].
  cbn [re_split_non_digit]. cbv iota.
  fold (two_digits (year t)). fold (four_digits (year t)).
  fold (two_digits (month t)). fold (two_digits (day t)).
  cbn [int_each].
  rewrite int_four_digits, !int_two_digits by lia.
  cbn [take]. unfold py_datetime. cbn [existsb nth].
  rewrite !(proj2 (Z.ltb_ge _ _)) by (unfold INT_MAX; lia).
  now rewrite Hy, Hm, Hd.
Qed.

(** X18. A [validity] written as Python writes a datetime
    ([YYYY-MM-DDTHH:MM:SS], the form of [isoformat()]) is read back as that
    very instant, and one written as a date alone ([YYYY-MM-DD]) is read as
    the midnight that starts the day. *)
Theorem validity_reads_isoformat_back (t : datetime) :
  valid_datetime t = true ->
  validity_of_text (isoformat (whole_second t)) = Return (whole_second t) /\
  validity_of_text (isoformat_date t) = Return (midnight t).
Proof.
  intros Hvalid. split; [|exact (validity_of_isoformat_date t Hvalid)].
  rewrite <- (validity_of_isoformat t EmptyString Hvalid) by now left.
  reflexivity.
Qed.

Lemma validity_reads_isoformat_back_witness :
  let leap_day := {| year := 2024; month := 2; day := 29; hour := 23; minute := 59;
                     second := 7; microsecond := 0 |} in
  valid_datetime leap_day = true /\
  isoformat leap_day = "2024-02-29T23:59:07" /\
  validity_of_text "2024-02-29T23:59:07" = Return leap_day /\
  validity_of_text "2024-02-29" = Return (midnight leap_day).
Proof.
  intros leap_day.
  assert (valid_datetime leap_day = true) as Hvalid by reflexivity.
  split; [exact Hvalid|]. split; [reflexivity|].
  exact (validity_reads_isoformat_back leap_day Hvalid).
Defined.

(** X19. Only the first six runs of digits of a [validity] are read: what
    follows the seconds, from the first character that is not a digit on, is
    ignored (as long as it is short enough for [int]).  So the fraction of a
    second and a UTC offset are dropped without notice: the text that
    [isoformat()] writes for a datetime with microseconds is read as the
    start of its second, and two texts that differ in their offset only are
    read as the same instant. *)
Theorem validity_ignores_what_follows_the_seconds (t : datetime) (c : ascii)
    (rest : string) :
  valid_datetime t = true ->
  is_digit c = false ->
  (String.length rest < int_max_str_digits)%nat ->
  validity_of_text (isoformat (whole_second t) +:+ String c rest) =
    Return (whole_second t) /\
  validity_of_text (isoformat t) = Return (whole_second t).
Proof.
  intros Hvalid Hc Hrest. split.
  - apply validity_of_isoformat; [exact Hvalid|]. right. now exists c, rest.
  - set (fraction := if (microsecond t =? 0)%Z then EmptyString
                     else "." +:+ six_digits (microsecond t)).
    assert (isoformat t = isoformat (whole_second t) +:+ fraction) as ->.
    { unfold isoformat, isoformat_date, whole_second, four_digits, two_digits.
      cbn [year month day hour minute second microsecond].
      change (0 =? 0)%Z with true. cbv iota. fold fraction.
      generalize fraction. intros f. cbv [String.append]. reflexivity. }
    apply validity_of_isoformat; [exact Hvalid|].
    subst fraction. destruct (microsecond t =? 0)%Z; [now left|right].
    exists "."%char, (six_digits (microsecond t)).
    split; [reflexivity|]. split; [reflexivity|].
    unfold six_digits, four_digits, two_digits, int_max_str_digits. simpl. lia.
Qed.

Lemma validity_ignores_what_follows_the_seconds_witness :
  let noon := {| year := 2020; month := 1; day := 15; hour := 12; minute := 0;
                 second := 0; microsecond := 250000 |} in
  valid_datetime noon = true /\
  is_digit "+" = false /\
  (String.length "02:00" < int_max_str_digits)%nat /\
  isoformat noon = "2020-01-15T12:00:00.250000" /\
  validity_of_text "2020-01-15T12:00:00+02:00" = Return (whole_second noon) /\
  validity_of_text "2020-01-15T12:00:00.250000" = Return (whole_second noon).
Proof.
  intros noon.
  assert (valid_datetime noon = true) as Hvalid by reflexivity.
  assert (is_digit "+" = false) as Hsign by reflexivity.
  assert (String.length "02:00" < int_max_str_digits)%nat as Hshort
    by (unfold int_max_str_digits; simpl; lia).
  split; [exact Hvalid|]. split; [exact Hsign|]. split; [exact Hshort|].
  split; [reflexivity|].
  exact (validity_ignores_what_follows_the_seconds noon "+" "02:00" Hvalid Hsign Hshort).
Defined.
(** ** The active language *)

Lemma receive_mutation_language env info_user data w mutation_log_id w0 :
  receive_mutation env info_user data w = (Return mutation_log_id, w0) ->
  active_language w0 =
  match info_user with
  | Some (Authenticated u) =>
      match language u with
      | Some (LanguageRow code) => Some code
      | Some (LanguageCode code) =>
          if String.eqb code "" then active_language w else Some code
      | None => active_language w
      end
  | _ => active_language w
  end.
Proof.
  unfold receive_mutation, mbind, M_bind, lift, MutationLog_create, mret, M_ret.
  destruct (dumps_openimis (PDict data)) as [content|e]; [|discriminate].
  destruct (create_fault env); [discriminate|].
  destruct info_user as [[|u]|]; simpl; try discriminate.
  - destruct (language u) as [[code|code]|]; simpl;
      try (destruct (String.eqb code ""); simpl);
      unfold translation_activate;
      try destruct (activate_fault env (LanguageCode code));
      try discriminate; now intros [= <- <-].
  - now intros [= <- <-].
Qed.

(** X20. A submission that returns leaves the language of the acting user
    active: the code of the [Language] row, or the language code when it is
    not empty.  Without a user, or for a user without a language, the active
    language is the one that was active before; nothing in the pipeline
    restores the previous language afterwards. *)
Theorem submission_leaves_the_user_language_active (env : environment)
    (cls : MutationClass) (info_user : option principal) (data : pydict) (w : world)
    (mutation_log_id : nat) :
  fst (mutate_and_get_payload env cls info_user data w) = Return mutation_log_id ->
  active_language (snd (mutate_and_get_payload env cls info_user data w)) =
  match info_user with
  | Some (Authenticated u) =>
      match language u with
      | Some (LanguageRow code) => Some code
      | Some (LanguageCode code) =>
          if String.eqb code "" then active_language w else Some code
      | None => active_language w
      end
  | _ => active_language w
  end.
Proof.
  intros Hreturn.
  destruct (receive_mutation env info_user data w) as [[id|e] w0] eqn:Hreceive.
  2:{ rewrite (mutate_raises _ cls _ _ _ _ _ Hreceive) in Hreturn. discriminate Hreturn. }
  destruct (receive_mutation_returns _ _ _ _ _ _ Hreceive) as (content & Hcontent & _).
  rewrite (mutate_run _ cls _ _ _ _ _ _ Hreceive Hcontent).
  cbn [snd settled active_language].
  exact (receive_mutation_language _ _ _ _ _ _ Hreceive).
Qed.

Lemma submission_leaves_the_user_language_active_witness :
  let run := mutate_and_get_payload (process_with true [] []) ChargeCard
               (Some (Authenticated alice)) payload empty_world in
  fst run = Return 0%nat /\ active_language (snd run) = Some "en".
Proof.
  intros run.
  assert (fst run = Return 0%nat) as Hreturn by reflexivity.
  split; [exact Hreturn|].
  exact (submission_leaves_the_user_language_active _ _ _ _ _ _ Hreturn).
Defined.

(** ** The status that is never written *)

Lemma pending_execution_is_never_written_witness :
  let env := process_with true [] [] in
  let someone := Some (Authenticated alice) in
  let ops := [Submit env SlowCard someone payload;
              Run env 0 "billing" "SlowCard";
              Submit (process_with false [funds_check] []) ChargeCard someone payload] in
  Forall (fun r => status r <> PENDING_EXECUTION) (mutation_logs empty_world) /\
  Forall (fun r => status r <> PENDING_EXECUTION)
    (mutation_logs (perform_all ops empty_world)) /\
  length (mutation_logs (perform_all ops empty_world)) = 2%nat.
Proof.
  intros env someone ops.
  assert (Forall (fun r => status r <> PENDING_EXECUTION) (mutation_logs empty_world))
    as Hempty by constructor.
  split; [exact Hempty|].
  split; [exact (pending_execution_is_never_written ops empty_world Hempty)|reflexivity].
Defined.
